(** * agiview2bmp: the VIEW decoder and compositor of [src/main.c]

    A shallow embedding of [GetSurfaceSize], [CreateSurface], [ViewToBMP]
    and [main].  Unsigned C fields are [Z] with their wrap-around written
    out; the [FILE] is the list of its bytes and a position; the SDL
    surface is its size and the sequence of [SDL_WriteSurfacePixel] calls
    made on it; a run of [main] is what it prints and saves, in order, the
    files it leaves and the way it ends. *)

From Stdlib Require Import ZArith List Lia Bool.
From Stdlib.Strings Require Import Byte String.
Import ListNotations.
Open Scope Z_scope.

(** ** Machine integers *)

Definition Uint8 (z : Z) : Z := z mod 256.
Definition Uint16 (z : Z) : Z := z mod 65536.

Definition byte_val (c : byte) : Z := Z.of_N (Byte.to_N c).

(** ** Arrays

    A zero-initialised C array is a list read with the zero element as
    default; a store past the end of the list pads it with zero elements.
    The indices used by the program stay below the counters, which are
    [Uint8] and so below [MAX_LOOPS] and [MAX_CELS]. *)

Section Arrays.
Context {A : Type} (zero : A).

Definition get (l : list A) (i : Z) : A := nth (Z.to_nat i) l zero.

Fixpoint upd (l : list A) (n : nat) (v : A) : list A :=
  match n, l with
  | O, [] => [v]
  | O, _ :: t => v :: t
  | S n', [] => zero :: upd [] n' v
  | S n', e :: t => e :: upd t n' v
  end.

Definition set (l : list A) (i : Z) (v : A) : list A := upd l (Z.to_nat i) v.
End Arrays.

(** ** The data model (lines 30-82) *)

Definition VER_MAJ : Z := 1.
Definition VER_MIN : Z := 0.
Definition MAX_LOOPS : Z := 255.
Definition MAX_CELS : Z := 255.

Record SDL_Color := mkColor { c_r : Z; c_g : Z; c_b : Z; c_a : Z }.

Definition pal : list SDL_Color :=
  [ mkColor 0x00 0x00 0x00 0xFF; mkColor 0x00 0x00 0xAA 0xFF;
    mkColor 0x00 0xAA 0x00 0xFF; mkColor 0x00 0xAA 0xAA 0xFF;
    mkColor 0xAA 0x00 0x00 0xFF; mkColor 0xAA 0x00 0xAA 0xFF;
    mkColor 0xAA 0x55 0x00 0xFF; mkColor 0xAA 0xAA 0xAA 0xFF;
    mkColor 0x55 0x55 0x55 0xFF; mkColor 0x55 0x55 0xFF 0xFF;
    mkColor 0x55 0xFF 0x55 0xFF; mkColor 0x55 0xFF 0xFF 0xFF;
    mkColor 0xFF 0x55 0x55 0xFF; mkColor 0xFF 0x55 0xFF 0xFF;
    mkColor 0xFF 0xFF 0x55 0xFF; mkColor 0xFF 0xFF 0xFF 0xFF ].

Definition color0 : SDL_Color := mkColor 0 0 0 0.

Record Cel := mkCel {
  header_offset : Z;
  data_offset : Z;
  width : Z;
  height : Z;
  transparency_color : Z;
  is_mirrored : Z;
  unmirrored_loop_num : Z
}.

Definition cel0 : Cel := mkCel 0 0 0 0 0 0 0.

Record Loop := mkLoop {
  offset : Z;
  num_cels : Z;
  total_width : Z;
  total_height : Z;
  cels : list Cel
}.

Definition loop0 : Loop := mkLoop 0 0 0 0 [].

Record View := mkView {
  loops : list Loop;
  num_loops : Z
}.

(** [View view = { 0 }] *)
Definition view0 : View := mkView [] 0.

Record SDL_Rect := mkRect { rect_x : Z; rect_y : Z; rect_w : Z; rect_h : Z }.

Definition cel_at (loop : Loop) (j : Z) : Cel := get cel0 (cels loop) j.
Definition loop_at (view : View) (i : Z) : Loop := get loop0 (loops view) i.

Definition set_cel (loop : Loop) (j : Z) (cel : Cel) : Loop :=
  mkLoop (offset loop) (num_cels loop) (total_width loop) (total_height loop)
         (set cel0 (cels loop) j cel).
Definition set_loop (view : View) (i : Z) (loop : Loop) : View :=
  mkView (set loop0 (loops view) i loop) (num_loops view).

Definition set_offset (loop : Loop) (v : Z) : Loop :=
  mkLoop v (num_cels loop) (total_width loop) (total_height loop) (cels loop).
Definition set_num_cels (loop : Loop) (v : Z) : Loop :=
  mkLoop (offset loop) v (total_width loop) (total_height loop) (cels loop).
Definition set_total_width (loop : Loop) (v : Z) : Loop :=
  mkLoop (offset loop) (num_cels loop) v (total_height loop) (cels loop).
Definition set_total_height (loop : Loop) (v : Z) : Loop :=
  mkLoop (offset loop) (num_cels loop) (total_width loop) v (cels loop).
Definition set_num_loops (view : View) (v : Z) : View :=
  mkView (loops view) v.

(** ** Counted loops

    [for ( int i = 0; i < n; i++ ) body] over a loop-carried state. *)

Fixpoint iter_from {S : Type} (k : nat) (i : Z) (body : Z -> S -> S) (s : S) : S :=
  match k with
  | O => s
  | S k' => iter_from k' (i + 1) body (body i s)
  end.

Definition iter {S : Type} (n : Z) (body : Z -> S -> S) (s : S) : S :=
  iter_from (Z.to_nat n) 0 body s.

(** ** GetSurfaceSize (lines 88-115) *)

(** The body of the loop over [j], lines 97-102. *)
Definition measure_cel (j : Z) (loop : Loop) : Loop :=
  let cel := cel_at loop j in
  let loop := set_total_width loop (Uint8 (total_width loop + width (cel_at loop j))) in
  if height cel >? total_height loop
  then set_total_height loop (height cel)
  else loop.

(** The body of the loop over [i], lines 94-109. *)
Definition measure_loop (i : Z) (st : View * SDL_Rect) : View * SDL_Rect :=
  let (view, result) := st in
  let loop := iter (num_cels (loop_at view i)) measure_cel (loop_at view i) in
  let view := set_loop view i loop in
  let result :=
    if total_width loop >? rect_w result
    then mkRect (rect_x result) (rect_y result) (total_width loop) (rect_h result)
    else result in
  let result :=
    mkRect (rect_x result) (rect_y result) (rect_w result)
           (rect_h result + total_height loop) in
  (view, result).

(** [GetSurfaceSize] writes through its [View *] argument: the view it
    leaves behind is returned next to the rectangle. *)
Definition GetSurfaceSize (view : View) : SDL_Rect * View :=
  let (view, result) := iter (num_loops view) measure_loop (view, mkRect 0 0 0 0) in
  (mkRect (rect_x result) (rect_y result) (rect_w result * 2) (rect_h result), view).

(** ** The file, the surface and undefined values

    [fpos] is the position of the [FILE]; [written] is the sequence of
    [SDL_WriteSurfacePixel] calls made so far, oldest first.  A computation
    ends in [Indeterminate] when the program goes on to use an object that
    no read has initialised, whose value the C language leaves open. *)

Record PixelWrite := mkWrite {
  px : Z; py : Z; pr : Z; pg : Z; pb : Z; pa : Z
}.

Record World := mkWorld { fpos : Z; written : list PixelWrite }.

Inductive Result (A : Type) : Type :=
| Ok (v : A)
| Indeterminate.
Arguments Ok {A} v.
Arguments Indeterminate {A}.

Definition M (A : Type) : Type := World -> Result (A * World).

Definition ret {A : Type} (v : A) : M A := fun w => Ok (v, w).

Definition bind {A B : Type} (m : M A) (k : A -> M B) : M B :=
  fun w => match m w with
           | Ok (v, w') => k v w'
           | Indeterminate => Indeterminate
           end.

Notation "x <- m ;; k" := (bind m (fun x => k))
  (at level 61, m at next level, right associativity).
Notation "m ;;; k" := (bind m (fun _ => k))
  (at level 61, right associativity).

(** [for ( int i = 0; i < n; i++ ) body] with effects. *)
Fixpoint for_from {S : Type} (k : nat) (i : Z) (body : Z -> S -> M S) (s : S) : M S :=
  match k with
  | O => ret s
  | S k' => s' <- body i s ;; for_from k' (i + 1) body s'
  end.

Definition for_ {S : Type} (n : Z) (body : Z -> S -> M S) (s : S) : M S :=
  for_from (Z.to_nat n) 0 body s.

Definition SDL_WriteSurfacePixel (x y r g b a : Z) : M unit :=
  fun w => Ok (tt, mkWorld (fpos w) (written w ++ [mkWrite x y r g b a])).

Section File.
(** The bytes of the file behind the [FILE *]. *)
Variable file : list byte.

Definition fseek (off : Z) : M unit :=
  fun w => Ok (tt, mkWorld off (written w)).

Definition ftell : M Z := fun w => Ok (fpos w, w).

(** [fread(&dest, sizeof(Uint8), 1, file)].  [dest] is what the
    destination holds before the call, [None] for a local that was
    never initialised.  At the end of the file nothing is stored and
    the position stays. *)
Definition fread_Uint8 (dest : option Z) : M Z :=
  fun w =>
    match nth_error file (Z.to_nat (fpos w)) with
    | Some c => Ok (byte_val c, mkWorld (fpos w + 1) (written w))
    | None => match dest with
              | Some v => Ok (v, w)
              | None => Indeterminate
              end
    end.

(** [fread(&dest, sizeof(Uint16), 1, file)] on a little-endian host.
    An element read in part has an indeterminate value. *)
Definition fread_Uint16 (dest : option Z) : M Z :=
  fun w =>
    match nth_error file (Z.to_nat (fpos w)),
          nth_error file (Z.to_nat (fpos w + 1)) with
    | Some lo, Some hi =>
        Ok (byte_val lo + 256 * byte_val hi, mkWorld (fpos w + 2) (written w))
    | Some _, None => Indeterminate
    | None, _ => match dest with
                 | Some v => Ok (v, w)
                 | None => Indeterminate
                 end
    end.

(** *** Reading the view (lines 150-194 of [ViewToBMP]) *)

(** Line 161. *)
Definition read_loop_offset (i : Z) (view : View) : M View :=
  off <- fread_Uint16 (Some (offset (loop_at view i))) ;;
  ret (set_loop view i (set_offset (loop_at view i) off)).

(** Lines 174-176. *)
Definition read_cel_offset (j : Z) (loop : Loop) : M Loop :=
  rel_offset <- fread_Uint16 None ;;
  let cel := cel_at loop j in
  ret (set_cel loop j
         (mkCel (Uint16 (offset loop + rel_offset)) (data_offset cel)
                (width cel) (height cel) (transparency_color cel)
                (is_mirrored cel) (unmirrored_loop_num cel))).

(** Lines 181-192. *)
Definition read_cel_header (j : Z) (loop : Loop) : M Loop :=
  let cel := cel_at loop j in
  fseek (header_offset cel) ;;;
  w <- fread_Uint8 (Some (width cel)) ;;
  h <- fread_Uint8 (Some (height cel)) ;;
  info <- fread_Uint8 None ;;
  p <- ftell ;;
  ret (set_cel loop j
         (mkCel (header_offset cel) (Uint16 p) w h
                (Z.land info 0x0F)
                (Z.shiftr (Z.land info 0x80) 7)
                (Z.shiftr (Z.land info 0x70) 4))).

(** Lines 166-193. *)
Definition read_loop (i : Z) (view : View) : M View :=
  let loop := loop_at view i in
  fseek (offset loop) ;;;
  n <- fread_Uint8 (Some (num_cels loop)) ;;
  let loop := set_num_cels loop n in
  loop <- for_ (num_cels loop) read_cel_offset loop ;;
  loop <- for_ (num_cels loop) read_cel_header loop ;;
  ret (set_loop view i loop).

(** Lines 150-194. *)
Definition read_view : M View :=
  let view := view0 in
  fseek 2 ;;;
  n <- fread_Uint8 (Some (num_loops view)) ;;
  let view := set_num_loops view n in
  fseek 5 ;;;
  view <- for_ (num_loops view) read_loop_offset view ;;
  for_ (num_loops view) read_loop view.

(** *** Drawing (lines 198-256 of [ViewToBMP]) *)

(** Lines 234-241: the colour of one run. *)
Definition run_color (cel : Cel) (color : Z) : SDL_Color :=
  if negb (color =? transparency_color cel)
  then mkColor (c_r (get color0 pal color)) (c_g (get color0 pal color))
               (c_b (get color0 pal color)) 255
  else mkColor 0 0 0 0.

(** Lines 243-247: [for ( int k = 0; k < 2; k++ )]. *)
Definition write_doubled (y step : Z) (c : SDL_Color) (x : Z) : M Z :=
  for_ 2 (fun _ x =>
            SDL_WriteSurfacePixel x y (c_r c) (c_g c) (c_b c) (c_a c) ;;;
            ret (x + step)) x.

(** Lines 233-248: [while ( count-- )] runs its body [count] times. *)
Definition write_run (cel : Cel) (y step color count x : Z) : M Z :=
  for_ count (fun _ x => write_doubled y step (run_color cel color) x) x.

(** Lines 220-249: [while ( 1 )].  [rest] is the file from the position
    of the [FILE] on, so that the [fread] of line 223 takes its head; at
    the end of the file it stores nothing and [byte], which has no
    initialiser, is indeterminate. *)
Fixpoint row_loop (rest : list byte) (cel : Cel) (y step x : Z) : M unit :=
  match rest with
  | [] => fun _ => Indeterminate
  | c :: rest' =>
      fun w =>
        let w := mkWorld (fpos w + 1) (written w) in
        let byte := byte_val c in
        if byte =? 0 then Ok (tt, w)
        else
          let color := Z.land (Z.shiftr byte 4) 0x0F in
          let count := Z.land byte 0x0F in
          (x <- write_run cel y step color count x ;;
           row_loop rest' cel y step x) w
  end.

(** Lines 210-218: where a row starts and which way it goes. *)
Definition row_start (cel : Cel) (i cel_x : Z) : Z * Z :=
  if negb (is_mirrored cel =? 0) && negb (unmirrored_loop_num cel =? i)
  then (cel_x + (width cel * 2) - 1, -1)
  else (cel_x, 1).

(** Lines 210-249: one iteration of the loop over [y]. *)
Definition draw_row (cel : Cel) (i cel_x y : Z) : M unit :=
  let (x, step) := row_start cel i cel_x in
  fun w => row_loop (skipn (Z.to_nat (fpos w)) file) cel y step x w.

(** Lines 206-252.  [for ( int y = cel_y; y < cel_y + cel->height; y++ )]
    is counted from 0 and [cel_y] added. *)
Definition draw_cel (loop : Loop) (i cel_y j cel_x : Z) : M Z :=
  let cel := cel_at loop j in
  fseek (data_offset cel) ;;;
  for_ (height cel) (fun k _ => draw_row cel i cel_x (cel_y + k)) tt ;;;
  ret (cel_x + width cel * 2).

(** Lines 202-255. *)
Definition draw_loop (view : View) (i cel_y : Z) : M Z :=
  let loop := loop_at view i in
  for_ (num_cels loop) (draw_cel loop i cel_y) 0 ;;;
  ret (cel_y + total_height loop).

(** Lines 200-256. *)
Definition draw_view (view : View) : M unit :=
  for_ (num_loops view) (draw_loop view) 0 ;;;
  ret tt.
End File.

(** ** The surface, [CreateSurface], [ViewToBMP] and [main] *)

Record SDL_Surface := mkSurface {
  surf_w : Z;
  surf_h : Z;
  surf_writes : list PixelWrite
}.

(** What [SDL_WriteSurfacePixel] leaves at a point of the surface: calls
    outside the surface store nothing, and [CreateSurface] has cleared it
    to transparent black. *)
Definition surface_pixel (s : SDL_Surface) (x y : Z) : SDL_Color :=
  fold_left
    (fun cur p =>
       if (px p =? x) && (py p =? y) && (0 <=? x) && (x <? surf_w s)
          && (0 <=? y) && (y <? surf_h s)
       then mkColor (pr p) (pg p) (pb p) (pa p) else cur)
    (surf_writes s) color0.

(** The collaborators of the program: which paths [fopen] opens, with
    their bytes, and for which sizes [SDL_CreateSurface] returns a
    surface. *)
Record Env := mkEnv {
  fopen : string -> option (list byte);
  SDL_CreateSurface : Z -> Z -> bool
}.

(** Lines 119-136.  [None] is [exit(EXIT_FAILURE)]. *)
Definition CreateSurface (env : Env) (view : View) : option (SDL_Rect * View) :=
  let (size, view) := GetSurfaceSize view in
  if SDL_CreateSurface env (rect_w size) (rect_h size)
  then Some (size, view)
  else None.

(** How [ViewToBMP] ends: with the early return of line 147; after
    [SDL_SaveBMP] has been called on the surface with the file name (line
    260; its result is not looked at); inside [CreateSurface], with
    [exit(EXIT_FAILURE)]; or in a way the C language leaves open. *)
Inductive FileOutcome : Type :=
| NotOpened
| Saved (name : string) (s : SDL_Surface)
| ExitFailure
| Undefined.

(** [snprintf(name, sizeof(name), "%s.bmp", path)] with [char name[256]]. *)
Definition bmp_name (path : string) : string :=
  String.substring 0 255 (String.append path ".bmp").

Definition world0 : World := mkWorld 0 [].

(** Lines 140-265. *)
Definition ViewToBMP (env : Env) (path : string) : FileOutcome :=
  match fopen env path with
  | None => NotOpened
  | Some file =>
      match read_view file world0 with
      | Indeterminate => Undefined
      | Ok (view, w) =>
          match CreateSurface env view with
          | None => ExitFailure
          | Some (size, view) =>
              match draw_view file view w with
              | Indeterminate => Undefined
              | Ok (_, w) =>
                  Saved (bmp_name path)
                        (mkSurface (rect_w size) (rect_h size) (written w))
              end
          end
      end
  end.

(** How the process ends: [main] returns, [exit] is called, or unknown. *)
Inductive Status : Type :=
| Returned (code : Z)
| Exited (code : Z)
| Unknown.

(** What a run shows to the outside, in order: the banner of lines
    272-276, the usage line of line 279, the progress message of line 143,
    the error message of line 146 (the text of [strerror] left out), the
    message of line 126 on [stderr] (the text of [SDL_GetError] left out),
    the call of [SDL_SaveBMP] of line 260 and the message of line 261. *)
Inductive Event : Type :=
| Banner
| Usage (prog : string)
| Converting (path : string)
| OpenError (path : string)
| SurfaceError
| SaveBMP (name : string) (s : SDL_Surface)
| SavedAs (name : string).

(** The files as [fopen] finds them, and what a call of [SDL_SaveBMP]
    makes of them: the file of that name holds the image from then on, in
    an encoding and under conditions that are the library's (the call may
    fail and leave the files as they were). *)
Definition Files : Type := string -> option (list byte).
Definition Saver : Type := Files -> string -> SDL_Surface -> Files.

(** The environment after line 260. *)
Definition after_save (SDL_SaveBMP : Saver) (env : Env) (name : string)
           (s : SDL_Surface) : Env :=
  mkEnv (SDL_SaveBMP (fopen env) name s) (SDL_CreateSurface env).

(** A run: what it showed, the environment it leaves, how it ended. *)
Record Run := mkRun {
  events : list Event;
  env_after : Env;
  status : Status
}.

(** A run that comes after the events [evs]. *)
Definition prefixed (evs : list Event) (r : Run) : Run :=
  mkRun (evs ++ events r) (env_after r) (status r).

(** What [ViewToBMP] shows, by the way it ends (lines 143, 146, 126, 260
    and 261). *)
Definition file_events (path : string) (o : FileOutcome) : list Event :=
  match o with
  | NotOpened => [Converting path; OpenError path]
  | Saved name s => [Converting path; SaveBMP name s; SavedAs name]
  | ExitFailure => [Converting path; SurfaceError]
  | Undefined => [Converting path]
  end.

(** Lines 282-284: one call of [ViewToBMP] after the other, each in the
    environment that the calls before it have left. *)
Fixpoint convert_all (SDL_SaveBMP : Saver) (env : Env) (paths : list string)
  : Run :=
  match paths with
  | [] => mkRun [] env (Returned 0)
  | path :: rest =>
      let o := ViewToBMP env path in
      match o with
      | NotOpened =>
          prefixed (file_events path o) (convert_all SDL_SaveBMP env rest)
      | Saved name s =>
          prefixed (file_events path o)
                (convert_all SDL_SaveBMP (after_save SDL_SaveBMP env name s) rest)
      | ExitFailure => mkRun (file_events path o) env (Exited 1)
      | Undefined => mkRun (file_events path o) env Unknown
      end
  end.

(** Lines 269-287.  [argv[0]] is the name of the program; the usage line
    is printed when no path follows it.  With an empty [argv], line 279
    hands a null pointer to [printf]. *)
Definition main (SDL_SaveBMP : Saver) (env : Env) (argv : list string) : Run :=
  match argv with
  | [] => mkRun [Banner] env Unknown
  | prog :: paths =>
      prefixed (Banner :: match paths with [] => [Usage prog] | _ => [] end)
               (convert_all SDL_SaveBMP env paths)
  end.

(** The images that a run has handed to [SDL_SaveBMP], with their names. *)
Definition saved (evs : list Event) : list (string * SDL_Surface) :=
  flat_map (fun e => match e with
                     | SaveBMP name s => [(name, s)]
                     | _ => []
                     end) evs.

(** ** Sample files *)

Definition bytes (l : list Z) : list byte :=
  map (fun z => match Byte.of_N (Z.to_N z) with Some c => c | None => x00 end) l.

(** One loop, one cel of 1 by 1, one blue pixel. *)
Definition file_one_pixel : list byte :=
  bytes [0; 0; 1; 0; 0;  7; 0;  1;  3; 0;  1; 1; 0;  0x11; 0].

(** Two loops at one offset; the cel is marked as mirrored, with loop 0
    as the loop that is not: 2 by 1, a blue pixel then a green one. *)
Definition file_mirror : list byte :=
  bytes [0; 0; 2; 0; 0;  9; 0;  9; 0;  1;  3; 0;  2; 1; 0x80;  0x11; 0x21; 0].

(** One loop of two cels, each 160 wide and one row high: 160 blue
    pixels, then 160 green ones. *)
Definition file_wide : list byte :=
  bytes ([0; 0; 1; 0; 0;  7; 0;  2;  5; 0;  20; 0]
         ++ [160; 1; 0] ++ repeat 0x1F 10 ++ [0x1A; 0]
         ++ [160; 1; 0] ++ repeat 0x2F 10 ++ [0x2A; 0]).

(** [file_one_pixel] with a second loop whose offset, 200, lies past the
    end of the file. *)
Definition file_short : list byte :=
  bytes [0; 0; 2; 0; 0;  9; 0;  200; 0;  1;  3; 0;  1; 1; 0;  0x11; 0].

(** One loop, one cel of 255 by 255, and no pixel data. *)
Definition file_large : list byte :=
  bytes [0; 0; 1; 0; 0;  7; 0;  1;  3; 0;  255; 255; 0].

(** An environment that holds the given files and in which a surface can
    be created as long as its pixels, four bytes each, fit into [cap]
    bytes. *)
Definition env_of (files : list (string * list byte)) (cap : Z) : Env :=
  mkEnv (fun path =>
           match find (fun f => String.eqb (fst f) path) files with
           | Some f => Some (snd f)
           | None => None
           end)
        (fun w h => w * h * 4 <=? cap).

(** [view_mirror] with the sizes of its loops filled in. *)
Definition view_mirror_sized : View :=
  mkView [ mkLoop 9 1 2 1 [mkCel 12 15 2 1 0 1 0];
           mkLoop 9 1 2 1 [mkCel 12 15 2 1 0 1 0] ] 2.

(** What [file_one_pixel] holds. *)
Definition view_one_pixel : View :=
  mkView [mkLoop 7 1 0 0 [mkCel 10 13 1 1 0 0 0]] 1.

(** What [file_wide] holds. *)
Definition view_wide : View :=
  mkView [mkLoop 7 2 0 0 [mkCel 12 15 160 1 0 0 0; mkCel 27 30 160 1 0 0 0]] 1.

Definition env_short : Env := env_of [("short"%string, file_short)] 1000000.

Definition env_capped : Env :=
  env_of [("large"%string, file_large); ("pixel"%string, file_one_pixel)] 65536.

(** [file_one_pixel] with a red pixel. *)
Definition file_red : list byte :=
  bytes [0; 0; 1; 0; 0;  7; 0;  1;  3; 0;  1; 1; 0;  0x41; 0].

(** [env_capped] with [file_short] and [file_red] as well. *)
Definition env_mixed : Env :=
  env_of [("large"%string, file_large); ("pixel"%string, file_one_pixel);
          ("short"%string, file_short); ("red"%string, file_red)] 65536.

(** One loop of two cels, each 1 by 1: a blue pixel, then a green one. *)
Definition file_pair : list byte :=
  bytes [0; 0; 1; 0; 0;  7; 0;  2;  5; 0;  10; 0;
         1; 1; 0;  0x11; 0;  1; 1; 0;  0x21; 0].

(** What [file_pair] holds. *)
Definition view_pair : View :=
  mkView [mkLoop 7 2 0 0 [mkCel 12 15 1 1 0 0 0; mkCel 17 20 1 1 0 0 0]] 1.

(** Twelve bytes: one loop at offset 7 with one cel, whose relative
    offset is 65532; the sum is 65539. *)
Definition file_wrap : list byte :=
  bytes [0; 0; 1; 0; 0;  7; 0;  1;  0xFC; 0xFF;  0; 0].

(** 65537 bytes: one loop at offset 7 with one cel, whose header is at
    7 + 65527 = 65534 and ends with the last byte of the file. *)
Definition file_far : list byte :=
  bytes ([0; 0; 1; 0; 0;  7; 0;  1;  0xF7; 0xFF] ++ repeat 0 (Z.to_nat 65527)).

(** ** Specification-side vocabulary *)

(** The indices [i, i+1, ..., i+k-1]. *)
Fixpoint zfrom (i : Z) (k : nat) : list Z :=
  match k with
  | O => []
  | S k' => i :: zfrom (i + 1) k'
  end.

Definition zrange (n : Z) : list Z := zfrom 0 (Z.to_nat n).

(** The cels of a loop and the loops of a view: the first [num_cels],
    [num_loops] entries of the arrays. *)
Definition loop_cels (loop : Loop) : list Cel :=
  map (cel_at loop) (zrange (num_cels loop)).
Definition view_loops (view : View) : list Loop :=
  map (loop_at view) (zrange (num_loops view)).

Definition zsum (l : list Z) : Z := fold_right Z.add 0 l.
Definition zmax (l : list Z) : Z := fold_right Z.max 0 l.

(** A loop's total width and total height as the text defines them. *)
Definition sum_widths (loop : Loop) : Z := zsum (map width (loop_cels loop)).
Definition max_height (loop : Loop) : Z := zmax (map height (loop_cels loop)).

(** The unsigned byte at an offset of the file and the little-endian
    16-bit value there; bytes past the end count as 0, which is what a
    zero-initialised field keeps when nothing is read into it. *)
Definition u8_at (file : list byte) (p : Z) : Z :=
  match nth_error file (Z.to_nat p) with
  | Some c => byte_val c
  | None => 0
  end.
Definition u16_at (file : list byte) (p : Z) : Z :=
  u8_at file p + 256 * u8_at file (p + 1).

Definition in_file (file : list byte) (p : Z) : bool :=
  Nat.ltb (Z.to_nat p) (List.length file).

(** The position moved on by [n] bytes. *)
Definition adv (n : Z) (w : World) : World := mkWorld (fpos w + n) (written w).

(** What the file says about cel [j] of the loop at offset [o]: after the
    cel offsets have been read, and after its header has been read. *)
Definition cel_stub (file : list byte) (o j : Z) : Cel :=
  mkCel (Uint16 (o + u16_at file (o + 1 + 2 * j))) 0 0 0 0 0 0.

Definition cel_spec (file : list byte) (o j : Z) : Cel :=
  let h := Uint16 (o + u16_at file (o + 1 + 2 * j)) in
  let info := u8_at file (h + 2) in
  mkCel h (Uint16 (h + 3)) (u8_at file h) (u8_at file (h + 1))
        (Z.land info 0x0F) (Z.shiftr (Z.land info 0x80) 7)
        (Z.shiftr (Z.land info 0x70) 4).

(** Loop [i] after the loop offsets have been read, and after the loop
    itself has been read. *)
Definition loop_stub (file : list byte) (i : Z) : Loop :=
  mkLoop (u16_at file (5 + 2 * i)) 0 0 0 [].

Definition loop_read (file : list byte) (i : Z) (loop : Loop) : Prop :=
  offset loop = u16_at file (5 + 2 * i) /\
  num_cels loop = u8_at file (offset loop) /\
  total_width loop = 0 /\
  total_height loop = 0 /\
  forall j, 0 <= j < num_cels loop ->
    cel_at loop j = cel_spec file (offset loop) j /\
    in_file file (offset loop + 2 + 2 * j) = true /\
    in_file file (header_offset (cel_spec file (offset loop) j) + 2) = true.

(** A file whose view can be read without touching an object that was
    never initialised: no loop offset is cut in two by the end of the
    file, and the offset and the three header bytes of every cel lie
    inside the file. *)
Definition loop_laid_out (file : list byte) (i : Z) : Prop :=
  let o := u16_at file (5 + 2 * i) in
  forall j, 0 <= j < u8_at file o ->
    in_file file (o + 2 + 2 * j) = true /\
    in_file file (Uint16 (o + u16_at file (o + 1 + 2 * j)) + 2) = true.

Definition laid_out (file : list byte) : Prop :=
  forall i, 0 <= i < u8_at file 2 ->
    in_file file (5 + 2 * i) = in_file file (5 + 2 * i + 1) /\
    loop_laid_out file i.

(** What [file_mirror] holds. *)
Definition view_mirror : View :=
  mkView [ mkLoop 9 1 0 0 [mkCel 12 15 2 1 0 1 0];
           mkLoop 9 1 0 0 [mkCel 12 15 2 1 0 1 0] ] 2.

(** The run a nonzero byte of pixel data stands for: colour and length. *)
Definition run_of (c : byte) : Z * Z :=
  (byte_val c / 16, byte_val c mod 16).

(** The source pixels of a row, as colour indices, from its runs. *)
Definition expand (runs : list (Z * Z)) : list Z :=
  flat_map (fun run => repeat (fst run) (Z.to_nat (snd run))) runs.

(** The call that draws colour index [color] of a cel at a point. *)
Definition pixel (cel : Cel) (y color x : Z) : PixelWrite :=
  let c := run_color cel color in
  mkWrite x y (c_r c) (c_g c) (c_b c) (c_a c).

(** Source pixels drawn from [x] on in direction [step], each one twice. *)
Fixpoint doubled (cel : Cel) (y step x : Z) (colors : list Z) : list PixelWrite :=
  match colors with
  | [] => []
  | c :: cs =>
      pixel cel y c x :: pixel cel y c (x + step)
        :: doubled cel y step (x + 2 * step) cs
  end.

Definition write0 : PixelWrite := mkWrite 0 0 0 0 0 0.

(** A byte of pixel data that does not end the row. *)
Definition nonzero (c : byte) : Prop := byte_val c <> 0.

(** A view as [read_view] leaves it: no loop has a size yet. *)
Definition fresh (view : View) : Prop :=
  forall i, total_width (loop_at view i) = 0 /\ total_height (loop_at view i) = 0.

(** The accumulations of lines 99-102 and 105-107, over the values met. *)
Definition wrap_sum (tw : Z) (ws : list Z) : Z :=
  fold_left (fun acc v => Uint8 (acc + v)) ws tw.
Definition run_max (th : Z) (hs : list Z) : Z :=
  fold_left (fun acc v => if v >? acc then v else acc) hs th.

(** What lines 96-103 leave in a loop. *)
Definition measured (loop : Loop) : Loop :=
  iter (num_cels loop) measure_cel loop.

(** ** Pixel data as rows

    The bytes of a row up to its zero byte and what follows the zero byte;
    [None] where no zero byte is left. *)
Fixpoint split_row (rest : list byte) : option (list byte * list byte) :=
  match rest with
  | [] => None
  | c :: rest' =>
      if byte_val c =? 0 then Some ([], rest')
      else match split_row rest' with
           | Some (cs, tail) => Some (c :: cs, tail)
           | None => None
           end
  end.

(** [h] rows one after the other. *)
Fixpoint split_rows (h : nat) (rest : list byte) : option (list (list byte)) :=
  match h with
  | O => Some []
  | S h' =>
      match split_row rest with
      | Some (cs, tail) =>
          match split_rows h' tail with
          | Some rows => Some (cs :: rows)
          | None => None
          end
      | None => None
      end
  end.

(** The bytes that rows take in the file, zero bytes included. *)
Definition rows_bytes (rows : list (list byte)) : Z :=
  zsum (map (fun cs => Z.of_nat (List.length cs) + 1) rows).

(** The writes for rows drawn from raster row [y] downwards, each from
    column [x] in direction [step]. *)
Fixpoint rows_writes (cel : Cel) (step x y : Z) (rows : list (list byte))
  : list PixelWrite :=
  match rows with
  | [] => []
  | cs :: rows' =>
      doubled cel y step x (expand (map run_of cs))
        ++ rows_writes cel step x (y + 1) rows'
  end.

(** A write moved to the column that mirrors its own about [a / 2]. *)
Definition flip (a : Z) (p : PixelWrite) : PixelWrite :=
  mkWrite (a - px p) (py p) (pr p) (pg p) (pb p) (pa p).

(** Where the cursors of lines 200-255 stand: [cel_x] before cel [j] of
    a loop and [cel_y] before loop [i] of a view. *)
Definition cel_x_at (loop : Loop) (j : Z) : Z :=
  zsum (map (fun j' => width (cel_at loop j') * 2) (zrange j)).
Definition cel_y_at (view : View) (i : Z) : Z :=
  zsum (map (fun i' => total_height (loop_at view i')) (zrange i)).

(** The rows of cel [j] of loop [i] as the file holds them. *)
Definition cel_rows (file : list byte) (view : View) (i j : Z)
  : option (list (list byte)) :=
  let cel := cel_at (loop_at view i) j in
  split_rows (Z.to_nat (height cel)) (skipn (Z.to_nat (data_offset cel)) file).

(** The writes for cel [j] of loop [i], given its rows. *)
Definition cel_writes (view : View) (i j : Z) (rows : list (list byte))
  : list PixelWrite :=
  let loop := loop_at view i in
  let cel := cel_at loop j in
  rows_writes cel (snd (row_start cel i (cel_x_at loop j)))
              (fst (row_start cel i (cel_x_at loop j))) (cel_y_at view i) rows.


(** A path of 255 characters. *)
Definition path_255 : string :=
  String.concat "" (repeat "a"%string 255).

(** The writes for a loop and for a view, cel after cel, from the rows
    that the file holds. *)
Definition loop_writes (file : list byte) (view : View) (i : Z) : list PixelWrite :=
  flat_map (fun j => match cel_rows file view i j with
                     | Some rows => cel_writes view i j rows
                     | None => []
                     end)
           (zrange (num_cels (loop_at view i))).
Definition view_writes (file : list byte) (view : View) : list PixelWrite :=
  flat_map (loop_writes file view) (zrange (num_loops view)).

(** A write inside the box whose corner is [x0], [y0] and whose sides
    are [w] and [h]. *)
Definition in_box (x0 y0 w h : Z) (p : PixelWrite) : Prop :=
  x0 <= px p < x0 + w /\ y0 <= py p < y0 + h.

(** What a run shows for a path that is handled to the end: the error
    message for a path that did not open, or the call that saves the image
    under the name made from the path. *)
Definition handled (path : string) (evs : list Event) : Prop :=
  evs = [Converting path; OpenError path] \/
  exists s, evs = [Converting path; SaveBMP (bmp_name path) s;
                   SavedAs (bmp_name path)].

(** A saver for the sample runs: from the call on, the file of the given
    name holds the pixels of the surface, row by row, four bytes each. *)
Definition surface_bytes (s : SDL_Surface) : list byte :=
  bytes (flat_map
           (fun y =>
              flat_map (fun x => let c := surface_pixel s x y in
                                 [c_r c; c_g c; c_b c; c_a c])
                       (zrange (surf_w s)))
           (zrange (surf_h s))).
Definition save_pixels : Saver :=
  fun files name s path =>
    if String.eqb path name then Some (surface_bytes s) else files path.

(** * Proofs *)

(** Case analysis on the integer comparisons of the goal. *)
Ltac zcases :=
  repeat match goal with
         | |- context [?a <=? ?b] => destruct (Z.leb_spec a b)
         | |- context [?a <? ?b] => destruct (Z.ltb_spec a b)
         | |- context [?a >? ?b] => destruct (Z.gtb_spec a b)
         | |- context [?a =? ?b] => destruct (Z.eqb_spec a b)
         end;
  cbn [andb orb negb]; cbv iota; try reflexivity; try lia.

(** Equality of structures down to integer equations. *)
Ltac eqz :=
  lazymatch goal with
  | |- @eq Z _ _ => lia
  | |- _ => first [reflexivity | progress f_equal; eqz]
  end.

(** ** Arrays *)

Section ArrayFacts.
Context {A : Type} (zero : A).

Lemma nth_upd (l : list A) (n m : nat) (v : A) :
  nth m (upd zero l n v) zero = if Nat.eqb m n then v else nth m l zero.
Proof.
  revert l m; induction n as [|n IH]; intros [|e t] [|m]; simpl;
    try reflexivity; try apply IH.
  - destruct m; reflexivity.
  - rewrite IH. destruct (Nat.eqb m n); [reflexivity | destruct m; reflexivity].
Qed.

Lemma get_set (l : list A) (i j : Z) (v : A) :
  get zero (set zero l i v) j =
  if Nat.eqb (Z.to_nat j) (Z.to_nat i) then v else get zero l j.
Proof. unfold get, set. apply nth_upd. Qed.

Lemma get_set_same (l : list A) (i : Z) (v : A) :
  get zero (set zero l i v) i = v.
Proof. rewrite get_set, Nat.eqb_refl. reflexivity. Qed.

Lemma get_set_other (l : list A) (i j : Z) (v : A) :
  0 <= i -> 0 <= j -> i <> j -> get zero (set zero l i v) j = get zero l j.
Proof.
  intros Hi Hj Hne. rewrite get_set.
  destruct (Nat.eqb_spec (Z.to_nat j) (Z.to_nat i)) as [E|E]; [lia | reflexivity].
Qed.
End ArrayFacts.

Lemma in_zfrom (k : nat) (i m : Z) :
  In m (zfrom i k) <-> i <= m < i + Z.of_nat k.
Proof.
  revert i; induction k as [|k IH]; intros i; simpl.
  - lia.
  - rewrite IH. lia.
Qed.

(** ** [GetSurfaceSize] *)

Lemma measure_cel_frame (j : Z) (loop : Loop) :
  offset (measure_cel j loop) = offset loop /\
  num_cels (measure_cel j loop) = num_cels loop /\
  cels (measure_cel j loop) = cels loop.
Proof.
  unfold measure_cel. destruct (_ >? _); simpl; auto.
Qed.

Lemma measure_cels_frame (k : nat) (j : Z) (loop : Loop) :
  offset (iter_from k j measure_cel loop) = offset loop /\
  num_cels (iter_from k j measure_cel loop) = num_cels loop /\
  cels (iter_from k j measure_cel loop) = cels loop.
Proof.
  revert j loop; induction k as [|k IH]; intros j loop; simpl; auto.
  destruct (IH (j + 1) (measure_cel j loop)) as (Ho & Hn & Hc).
  destruct (measure_cel_frame j loop) as (Ho' & Hn' & Hc').
  repeat split; congruence.
Qed.

Lemma measure_cels_totals (k : nat) (j : Z) (loop : Loop) :
  total_width (iter_from k j measure_cel loop) =
    wrap_sum (total_width loop) (map width (map (cel_at loop) (zfrom j k))) /\
  total_height (iter_from k j measure_cel loop) =
    run_max (total_height loop) (map height (map (cel_at loop) (zfrom j k))).
Proof.
  revert j loop; induction k as [|k IH]; intros j loop; simpl; auto.
  destruct (IH (j + 1) (measure_cel j loop)) as (Hw & Hh).
  destruct (measure_cel_frame j loop) as (_ & _ & Hc).
  assert (Hat : forall m, cel_at (measure_cel j loop) m = cel_at loop m)
    by (intros m; unfold cel_at; rewrite Hc; reflexivity).
  rewrite Hw, Hh. unfold wrap_sum, run_max.
  rewrite (map_ext _ _ Hat).
  unfold measure_cel. destruct (_ >? _); simpl; auto.
Qed.

Lemma wrap_sum_mod (ws : list Z) (tw : Z) :
  0 <= tw < 256 -> wrap_sum tw ws = (tw + zsum ws) mod 256.
Proof.
  revert tw; induction ws as [|v ws IH]; intros tw Htw.
  - simpl. rewrite Z.add_0_r, Z.mod_small; lia.
  - unfold wrap_sum in *. simpl. rewrite IH.
    + unfold Uint8. rewrite Zplus_mod_idemp_l. f_equal. lia.
    + unfold Uint8. apply Z.mod_pos_bound. lia.
Qed.

Lemma fold_max_absorb (xs : list Z) (x a : Z) :
  fold_right Z.max (Z.max x a) xs = Z.max x (fold_right Z.max a xs).
Proof. induction xs as [|v xs IH]; simpl; lia. Qed.

Lemma run_max_fold (hs : list Z) (th : Z) :
  run_max th hs = fold_right Z.max th hs.
Proof.
  revert th; induction hs as [|v hs IH]; intros th; [reflexivity|].
  unfold run_max in *. simpl. rewrite IH.
  rewrite <- fold_max_absorb.
  destruct (Z.gtb_spec v th); f_equal; lia.
Qed.

Lemma measured_frame (loop : Loop) :
  offset (measured loop) = offset loop /\
  num_cels (measured loop) = num_cels loop /\
  cels (measured loop) = cels loop.
Proof. apply measure_cels_frame. Qed.

Lemma measured_fresh (loop : Loop) :
  total_width loop = 0 -> total_height loop = 0 ->
  total_width (measured loop) = sum_widths loop mod 256 /\
  total_height (measured loop) = max_height loop.
Proof.
  intros Hw Hh. unfold measured, iter.
  destruct (measure_cels_totals (Z.to_nat (num_cels loop)) 0 loop) as (Ew & Eh).
  rewrite Ew, Eh, Hw, Hh. split.
  - rewrite wrap_sum_mod by lia. reflexivity.
  - rewrite run_max_fold. reflexivity.
Qed.

(** The loop over [i], lines 93-110, started at [i] for [k] rounds. *)
Lemma measure_loops_spec (k : nat) (i : Z) (view : View) (result : SDL_Rect) :
  0 <= i ->
  let ls := map measured (map (loop_at view) (zfrom i k)) in
  let out := iter_from k i measure_loop (view, result) in
  num_loops (fst out) = num_loops view /\
  (forall m, 0 <= m ->
     loop_at (fst out) m =
     if (i <=? m) && (m <? i + Z.of_nat k)
     then measured (loop_at view m) else loop_at view m) /\
  rect_w (snd out) = run_max (rect_w result) (map total_width ls) /\
  rect_h (snd out) = rect_h result + zsum (map total_height ls).
Proof.
  revert i view result; induction k as [|k IH]; intros i view result Hi.
  - simpl. repeat split; try lia.
    intros m Hm. zcases.
  - cbn zeta. change (iter_from (S k) i measure_loop (view, result))
      with (iter_from k (i + 1) measure_loop (measure_loop i (view, result))).
    set (loop := measured (loop_at view i)).
    set (view1 := set_loop view i loop).
    assert (Hstep : measure_loop i (view, result) =
      (view1, mkRect (rect_x result) (rect_y result)
                (if total_width loop >? rect_w result then total_width loop
                 else rect_w result)
                (rect_h result + total_height loop))).
    { unfold measure_loop. fold (measured (loop_at view i)). fold loop. fold view1.
      destruct (total_width loop >? rect_w result); reflexivity. }
    rewrite Hstep.
    set (result1 := mkRect _ _ _ _).
    assert (Hat : forall m, 0 <= m ->
              loop_at view1 m = if m =? i then loop else loop_at view m).
    { intros m Hm. unfold loop_at, view1, set_loop; simpl.
      destruct (Z.eqb_spec m i) as [->|Hne].
      - apply get_set_same.
      - apply get_set_other; lia. }
    specialize (IH (i + 1) view1 result1 ltac:(lia)). cbn zeta in IH.
    destruct IH as (Hn & Hl & Hw & Hh).
    assert (Hmap : map (loop_at view1) (zfrom (i + 1) k) =
                   map (loop_at view) (zfrom (i + 1) k)).
    { apply map_ext_in. intros m Hm. apply in_zfrom in Hm.
      rewrite Hat by lia. destruct (Z.eqb_spec m i); [lia | reflexivity]. }
    rewrite Hmap in Hw, Hh.
    repeat split.
    + rewrite Hn. reflexivity.
    + intros m Hm. rewrite Hl by exact Hm. rewrite Hat by exact Hm.
      destruct (Z.eqb_spec m i) as [->|Hne].
      * zcases.
      * zcases.
    + rewrite Hw. reflexivity.
    + rewrite Hh. simpl. fold loop. unfold zsum. simpl. lia.
Qed.

Lemma loop_at_neg (view : View) (m : Z) : m < 0 -> loop_at view m = loop_at view 0.
Proof.
  intros Hm. unfold loop_at, get. replace (Z.to_nat m) with (Z.to_nat 0) by lia.
  reflexivity.
Qed.

(** [GetSurfaceSize] as a whole: every loop below [num_loops] is measured,
    the others are left alone; the rectangle is at the origin, twice as
    wide as the widest measured loop and as high as all of them. *)
Lemma GetSurfaceSize_spec (view : View) :
  let ls := map measured (view_loops view) in
  num_loops (snd (GetSurfaceSize view)) = num_loops view /\
  (forall m, 0 <= m ->
     loop_at (snd (GetSurfaceSize view)) m =
     if m <? num_loops view then measured (loop_at view m) else loop_at view m) /\
  rect_w (fst (GetSurfaceSize view)) = run_max 0 (map total_width ls) * 2 /\
  rect_h (fst (GetSurfaceSize view)) = zsum (map total_height ls).
Proof.
  cbn zeta. unfold GetSurfaceSize, iter, view_loops, zrange.
  pose proof (measure_loops_spec (Z.to_nat (num_loops view)) 0 view
                (mkRect 0 0 0 0) ltac:(lia)) as H.
  cbn zeta in H.
  destruct (iter_from _ 0 measure_loop _) as [view' result].
  simpl in *. destruct H as (Hn & Hl & Hw & Hh).
  repeat split; auto.
  - intros m Hm. rewrite Hl by exact Hm. zcases.
  - rewrite Hw. reflexivity.
Qed.

(** What [GetSurfaceSize] returns for a view whose loops have no size
    yet: each loop's width is stored modulo 256. *)
Lemma GetSurfaceSize_fresh (view : View) :
  fresh view ->
  (forall i, 0 <= i < num_loops view ->
     total_width (loop_at (snd (GetSurfaceSize view)) i) =
       sum_widths (loop_at view i) mod 256 /\
     total_height (loop_at (snd (GetSurfaceSize view)) i) =
       max_height (loop_at view i)) /\
  rect_w (fst (GetSurfaceSize view)) =
    2 * zmax (map (fun loop => sum_widths loop mod 256) (view_loops view)) /\
  rect_h (fst (GetSurfaceSize view)) = zsum (map max_height (view_loops view)).
Proof.
  intros Hfresh.
  destruct (GetSurfaceSize_spec view) as (_ & Hl & Hw & Hh).
  split; [|split].
  - intros i Hi. rewrite Hl by lia.
    destruct (Z.ltb_spec i (num_loops view)); [|lia].
    apply measured_fresh; apply Hfresh.
  - rewrite Hw, run_max_fold, Z.mul_comm. f_equal. unfold zmax. f_equal.
    unfold view_loops. rewrite !map_map. apply map_ext. intros i.
    apply measured_fresh; apply Hfresh.
  - rewrite Hh. f_equal. unfold view_loops. rewrite !map_map.
    apply map_ext. intros i. apply measured_fresh; apply Hfresh.
Qed.

(** Where no loop is wider than 255 the canvas is twice as wide as the
    widest loop and as high as the loops' largest cels taken together. *)
Lemma GetSurfaceSize_narrow (view : View) :
  fresh view ->
  (forall loop, In loop (view_loops view) -> 0 <= sum_widths loop < 256) ->
  rect_w (fst (GetSurfaceSize view)) = 2 * zmax (map sum_widths (view_loops view)) /\
  rect_h (fst (GetSurfaceSize view)) = zsum (map max_height (view_loops view)).
Proof.
  intros Hfresh Hnarrow.
  destruct (GetSurfaceSize_fresh view Hfresh) as (_ & Hw & Hh).
  split; [|exact Hh]. rewrite Hw. do 2 f_equal.
  apply map_ext_in. intros loop Hin. apply Z.mod_small. apply Hnarrow. exact Hin.
Qed.

(** ** The monad and the reads *)

Lemma bind_Ok {A B : Type} (m : M A) (k : A -> M B) (w : World) (r : B * World) :
  bind m k w = Ok r -> exists v w1, m w = Ok (v, w1) /\ k v w1 = Ok r.
Proof.
  unfold bind. destruct (m w) as [[v w1]|]; [|discriminate].
  intros H. exists v, w1. auto.
Qed.

Lemma for_from_inv {St : Type} (I : Z -> St -> World -> Prop)
      (body : Z -> St -> M St) (k : nat) :
  forall i s w s' w',
    I i s w ->
    (forall m s w s' w', i <= m < i + Z.of_nat k ->
       I m s w -> body m s w = Ok (s', w') -> I (m + 1) s' w') ->
    for_from k i body s w = Ok (s', w') ->
    I (i + Z.of_nat k) s' w'.
Proof.
  induction k as [|k IH]; intros i s w s' w' Hi Hbody Hrun.
  - simpl in Hrun. injection Hrun as <- <-. rewrite Z.add_0_r. exact Hi.
  - simpl in Hrun. apply bind_Ok in Hrun. destruct Hrun as (s1 & w1 & H1 & H2).
    replace (i + Z.of_nat (S k)) with (i + 1 + Z.of_nat k) by lia.
    apply (IH (i + 1) s1 w1); auto.
    + apply (Hbody i s w); auto. lia.
    + intros m s2 w2 s3 w3 Hm. apply Hbody. lia.
Qed.

Lemma for_inv {St : Type} (I : Z -> St -> World -> Prop)
      (body : Z -> St -> M St) (n : Z) (s : St) (w : World) (s' : St) (w' : World) :
  0 <= n ->
  I 0 s w ->
  (forall m s w s' w', 0 <= m < n ->
     I m s w -> body m s w = Ok (s', w') -> I (m + 1) s' w') ->
  for_ n body s w = Ok (s', w') ->
  I n s' w'.
Proof.
  intros Hn H0 Hbody Hrun. unfold for_ in Hrun.
  replace n with (0 + Z.of_nat (Z.to_nat n)) at 1 by lia.
  apply (for_from_inv I body (Z.to_nat n) 0 s w); auto.
  intros m s1 w1 s2 w2 Hm. apply Hbody. lia.
Qed.

Lemma bind_step {A B : Type} (m : M A) (k : A -> M B) (w : World)
      (v : A) (w1 : World) :
  m w = Ok (v, w1) -> bind m k w = k v w1.
Proof. unfold bind. intros ->. reflexivity. Qed.

Lemma for_from_last {St : Type} (body : Z -> St -> M St) (k : nat) :
  forall i s w,
    for_from (S k) i body s w =
    bind (for_from k i body s) (body (i + Z.of_nat k)) w.
Proof.
  induction k as [|k IH]; intros i s w.
  - cbn [for_from]. unfold bind, ret. rewrite Z.add_0_r.
    destruct (body i s w) as [[s1 w1]|]; reflexivity.
  - change (for_from (S (S k)) i body s w)
      with (bind (body i s) (for_from (S k) (i + 1) body) w).
    change (for_from (S k) i body s)
      with (bind (body i s) (for_from k (i + 1) body)).
    unfold bind. destruct (body i s w) as [[s1 w1]|]; [|reflexivity].
    rewrite IH. unfold bind.
    replace (i + 1 + Z.of_nat k) with (i + Z.of_nat (S k)) by lia.
    reflexivity.
Qed.

Lemma for_succ {St : Type} (body : Z -> St -> M St) (m : Z) (s : St) (w : World) :
  0 <= m -> for_ (m + 1) body s w = bind (for_ m body s) (body m) w.
Proof.
  intros Hm. unfold for_.
  replace (Z.to_nat (m + 1)) with (S (Z.to_nat m)) by lia.
  rewrite for_from_last. rewrite Z.add_0_l, Z2Nat.id by exact Hm. reflexivity.
Qed.

(** A counted loop ends well if every round does, from whatever state
    the rounds before it have led to. *)
Lemma for_total {St : Type} (body : Z -> St -> M St) (n : Z) (s : St) (w : World) :
  0 <= n ->
  (forall m s1 w1, 0 <= m < n ->
     for_ m body s w = Ok (s1, w1) ->
     exists s2 w2, body m s1 w1 = Ok (s2, w2)) ->
  exists s' w', for_ n body s w = Ok (s', w').
Proof.
  intros Hn. pattern n. apply natlike_ind; [| |exact Hn].
  - intros _. exists s, w. reflexivity.
  - intros m Hm IH Hbody.
    destruct IH as (s1 & w1 & H1).
    { intros m' s' w' Hm'. apply Hbody. lia. }
    destruct (Hbody m s1 w1 ltac:(lia) H1) as (s2 & w2 & H2).
    exists s2, w2. unfold Z.succ. rewrite for_succ by exact Hm.
    rewrite (bind_step _ _ _ _ _ H1). exact H2.
Qed.

Section Reads.
Variable file : list byte.

Lemma in_file_true (p : Z) :
  in_file file p = true ->
  exists c, nth_error file (Z.to_nat p) = Some c /\ u8_at file p = byte_val c.
Proof.
  unfold in_file, u8_at. intros H. apply Nat.ltb_lt in H.
  destruct (nth_error file (Z.to_nat p)) as [c|] eqn:E.
  - exists c. auto.
  - apply nth_error_None in E. lia.
Qed.

Lemma in_file_false (p : Z) :
  in_file file p = false ->
  nth_error file (Z.to_nat p) = None /\ u8_at file p = 0.
Proof.
  unfold in_file, u8_at. intros H. apply Nat.ltb_ge in H.
  apply nth_error_None in H. rewrite H. auto.
Qed.

Lemma in_file_later (p q : Z) :
  in_file file p = false -> p <= q -> in_file file q = false.
Proof.
  unfold in_file. intros H Hpq. apply Nat.ltb_ge in H. apply Nat.ltb_ge. lia.
Qed.

Lemma in_file_earlier (p q : Z) :
  in_file file q = true -> p <= q -> in_file file p = true.
Proof.
  unfold in_file. intros H Hpq. apply Nat.ltb_lt in H. apply Nat.ltb_lt. lia.
Qed.

(** A one-byte read into a field that holds [d]. *)
Lemma fread_Uint8_field (d : Z) (w : World) :
  fread_Uint8 file (Some d) w =
  if in_file file (fpos w)
  then Ok (u8_at file (fpos w), adv 1 w)
  else Ok (d, w).
Proof.
  unfold fread_Uint8. destruct (in_file file (fpos w)) eqn:E.
  - destruct (in_file_true _ E) as (c & -> & ->). reflexivity.
  - destruct (in_file_false _ E) as (-> & _). reflexivity.
Qed.

(** A one-byte read into a local without initialiser. *)
Lemma fread_Uint8_local (w : World) :
  fread_Uint8 file None w =
  if in_file file (fpos w)
  then Ok (u8_at file (fpos w), adv 1 w)
  else Indeterminate.
Proof.
  unfold fread_Uint8. destruct (in_file file (fpos w)) eqn:E.
  - destruct (in_file_true _ E) as (c & -> & ->). reflexivity.
  - destruct (in_file_false _ E) as (-> & _). reflexivity.
Qed.

(** A two-byte read: whole, in part, or not at all. *)
Lemma fread_Uint16_cases (dest : option Z) (w : World) :
  fread_Uint16 file dest w =
  if in_file file (fpos w + 1)
  then Ok (u16_at file (fpos w), adv 2 w)
  else if in_file file (fpos w)
       then Indeterminate
       else match dest with Some d => Ok (d, w) | None => Indeterminate end.
Proof.
  unfold fread_Uint16, u16_at.
  destruct (in_file file (fpos w + 1)) eqn:E1.
  - assert (E0 : in_file file (fpos w) = true)
      by (apply (in_file_earlier _ _ E1); lia).
    destruct (in_file_true _ E0) as (lo & -> & ->).
    destruct (in_file_true _ E1) as (hi & -> & ->). reflexivity.
  - destruct (in_file_false _ E1) as (-> & _).
    destruct (in_file file (fpos w)) eqn:E0.
    + destruct (in_file_true _ E0) as (lo & -> & _). reflexivity.
    + destruct (in_file_false _ E0) as (-> & _). reflexivity.
Qed.
End Reads.

(** ** Reading the view *)

Lemma byte_val_range (c : byte) : 0 <= byte_val c < 256.
Proof.
  destruct c; vm_compute; split; congruence.
Qed.

Lemma u8_at_range (file : list byte) (p : Z) : 0 <= u8_at file p < 256.
Proof.
  unfold u8_at. destruct (nth_error file (Z.to_nat p)); [apply byte_val_range | lia].
Qed.

Lemma cel_at_set_cel (loop : Loop) (j j' : Z) (c : Cel) :
  0 <= j -> 0 <= j' ->
  cel_at (set_cel loop j c) j' = if j' =? j then c else cel_at loop j'.
Proof.
  intros Hj Hj'. unfold cel_at, set_cel; simpl.
  destruct (Z.eqb_spec j' j) as [->|Hne].
  - apply get_set_same.
  - apply get_set_other; lia.
Qed.

Lemma loop_at_set_loop (view : View) (i i' : Z) (loop : Loop) :
  0 <= i -> 0 <= i' ->
  loop_at (set_loop view i loop) i' = if i' =? i then loop else loop_at view i'.
Proof.
  intros Hi Hi'. unfold loop_at, set_loop; simpl.
  destruct (Z.eqb_spec i' i) as [->|Hne].
  - apply get_set_same.
  - apply get_set_other; lia.
Qed.

Section ReadView.
Variable file : list byte.

Lemma read_cel_offset_Ok (j : Z) (loop : Loop) (w : World) (loop' : Loop) (w' : World) :
  read_cel_offset file j loop w = Ok (loop', w') ->
  loop' = set_cel loop j
            (mkCel (Uint16 (offset loop + u16_at file (fpos w)))
                   (data_offset (cel_at loop j)) (width (cel_at loop j))
                   (height (cel_at loop j)) (transparency_color (cel_at loop j))
                   (is_mirrored (cel_at loop j)) (unmirrored_loop_num (cel_at loop j))) /\
  w' = adv 2 w /\
  in_file file (fpos w + 1) = true.
Proof.
  unfold read_cel_offset, bind, ret. rewrite fread_Uint16_cases.
  destruct (in_file file (fpos w + 1)).
  - intros H. injection H as <- <-. auto.
  - destruct (in_file file (fpos w)); discriminate.
Qed.

Lemma read_cel_header_Ok (j : Z) (loop : Loop) (w : World) (loop' : Loop) (w' : World) :
  read_cel_header file j loop w = Ok (loop', w') ->
  let h := header_offset (cel_at loop j) in
  let info := u8_at file (h + 2) in
  loop' = set_cel loop j
            (mkCel h (Uint16 (h + 3)) (u8_at file h) (u8_at file (h + 1))
                   (Z.land info 0x0F) (Z.shiftr (Z.land info 0x80) 7)
                   (Z.shiftr (Z.land info 0x70) 4)) /\
  w' = mkWorld (h + 3) (written w) /\
  in_file file (h + 2) = true.
Proof.
  unfold read_cel_header, bind, ret, fseek, ftell.
  rewrite fread_Uint8_field. cbn [fpos written].
  destruct (in_file file (header_offset (cel_at loop j))) eqn:E0.
  - rewrite fread_Uint8_field. cbn [adv fpos written].
    destruct (in_file file (header_offset (cel_at loop j) + 1)) eqn:E1.
    + rewrite fread_Uint8_local. cbn [adv fpos written].
      replace (header_offset (cel_at loop j) + 1 + 1)
        with (header_offset (cel_at loop j) + 2) by lia.
      destruct (in_file file (header_offset (cel_at loop j) + 2)) eqn:E2;
        [|discriminate].
      cbn [adv fpos written]. intros H. injection H as <- <-.
      replace (header_offset (cel_at loop j) + 1 + 1 + 1)
        with (header_offset (cel_at loop j) + 3) by lia.
      repeat split. unfold adv; simpl. f_equal. lia.
    + rewrite fread_Uint8_local. cbn [adv fpos written]. rewrite E1. discriminate.
  - rewrite fread_Uint8_field. cbn [fpos written]. rewrite E0.
    rewrite fread_Uint8_local. cbn [fpos written]. rewrite E0. discriminate.
Qed.

Lemma for_zero {St : Type} (body : Z -> St -> M St) (st : St) (w : World) :
  for_ 0 body st w = Ok (st, w).
Proof. reflexivity. Qed.

(** Lines 173-177, for a loop at offset [o] whose cels are still zero. *)
Lemma read_cel_offsets_Ok (n o : Z) (loop : Loop) (w : World)
      (loop' : Loop) (w' : World) :
  0 <= n -> offset loop = o -> fpos w = o + 1 ->
  (forall j, 0 <= j -> cel_at loop j = cel0) ->
  for_ n (read_cel_offset file) loop w = Ok (loop', w') ->
  offset loop' = o /\ num_cels loop' = num_cels loop /\
  total_width loop' = total_width loop /\
  total_height loop' = total_height loop /\
  written w' = written w /\ fpos w' = o + 1 + 2 * n /\
  (forall j, 0 <= j ->
     cel_at loop' j = if j <? n then cel_stub file o j else cel0) /\
  forall j, 0 <= j < n -> in_file file (o + 2 + 2 * j) = true.
Proof.
  intros Hn Ho Hpos Hzero Hrun.
  pose (I := fun (m : Z) (l : Loop) (w1 : World) =>
    offset l = o /\ num_cels l = num_cels loop /\
    total_width l = total_width loop /\ total_height l = total_height loop /\
    written w1 = written w /\ fpos w1 = o + 1 + 2 * m /\
    (forall j, 0 <= j ->
       cel_at l j = if j <? m then cel_stub file o j else cel0) /\
    forall j, 0 <= j < m -> in_file file (o + 2 + 2 * j) = true).
  assert (HI : I n loop' w').
  { apply (for_inv I (read_cel_offset file) n loop w); auto.
    - unfold I. repeat split; auto; try lia.
      intros j Hj. rewrite Hzero by lia. zcases.
    - intros m l w1 l1 w2 Hm (Io & Inc & Itw & Ith & Iwr & Ipos & Icel & Iin) Hstep.
      apply read_cel_offset_Ok in Hstep. destruct Hstep as (-> & -> & Hin).
      unfold I. cbn [offset num_cels total_width total_height set_cel adv fpos written].
      repeat split; auto; try lia.
      + intros j Hj. rewrite cel_at_set_cel by lia.
        rewrite (Icel m) by lia. rewrite (Icel j) by lia. rewrite Io, Ipos.
        unfold cel_stub. zcases; subst; reflexivity.
      + intros j Hj. destruct (Z.eq_dec j m) as [->|Hne].
        * rewrite Ipos in Hin. rewrite <- Hin. f_equal. lia.
        * apply Iin. lia. }
  destruct HI as (? & ? & ? & ? & ? & ? & ? & ?).
  do 6 (split; [assumption|]). split; assumption.
Qed.

(** Lines 180-193, after the cel offsets have been read. *)
Lemma read_cel_headers_Ok (n N o : Z) (loop : Loop) (w : World)
      (loop' : Loop) (w' : World) :
  0 <= n <= N -> offset loop = o ->
  (forall j, 0 <= j ->
     cel_at loop j = if j <? N then cel_stub file o j else cel0) ->
  for_ n (read_cel_header file) loop w = Ok (loop', w') ->
  offset loop' = o /\ num_cels loop' = num_cels loop /\
  total_width loop' = total_width loop /\
  total_height loop' = total_height loop /\
  written w' = written w /\
  (forall j, 0 <= j ->
     cel_at loop' j = if j <? n then cel_spec file o j
                      else if j <? N then cel_stub file o j else cel0) /\
  forall j, 0 <= j < n ->
    in_file file (header_offset (cel_spec file o j) + 2) = true.
Proof.
  intros Hn Ho Hstub Hrun.
  pose (I := fun (m : Z) (l : Loop) (w1 : World) =>
    offset l = o /\ num_cels l = num_cels loop /\
    total_width l = total_width loop /\ total_height l = total_height loop /\
    written w1 = written w /\
    (forall j, 0 <= j ->
       cel_at l j = if j <? m then cel_spec file o j
                    else if j <? N then cel_stub file o j else cel0) /\
    forall j, 0 <= j < m ->
      in_file file (header_offset (cel_spec file o j) + 2) = true).
  assert (HI : I n loop' w').
  { apply (for_inv I (read_cel_header file) n loop w); auto; try lia.
    - unfold I. repeat split; auto.
      intros j Hj. rewrite Hstub by lia. zcases.
      + intros j Hj. lia.
    - intros m l w1 l1 w2 Hm (Io & Inc & Itw & Ith & Iwr & Icel & Iin) Hstep.
      apply read_cel_header_Ok in Hstep. cbn zeta in Hstep.
      destruct Hstep as (-> & -> & Hin).
      rewrite (Icel m) in Hin by lia.
      destruct (Z.ltb_spec m m); [lia|].
      destruct (Z.ltb_spec m N); [|lia].
      unfold I. cbn [offset num_cels total_width total_height set_cel fpos written].
      repeat split; auto.
      + intros j Hj. rewrite cel_at_set_cel by lia.
        rewrite (Icel m) by lia. rewrite (Icel j) by lia.
        destruct (Z.eqb_spec j m) as [->|Hne].
        * destruct (Z.ltb_spec m m); [lia|].
          destruct (Z.ltb_spec m N); [|lia].
          destruct (Z.ltb_spec m (m + 1)); [|lia].
          reflexivity.
        * zcases.
      + intros j Hj. destruct (Z.eq_dec j m) as [->|Hne].
        * exact Hin.
        * apply Iin. lia. }
  destruct HI as (? & ? & ? & ? & ? & Hc & Hin).
  do 5 (split; [assumption|]). split; assumption.
Qed.

(** Lines 166-193, for a loop of which only the offset has been read. *)
Lemma read_loop_Ok (i : Z) (view : View) (w : World) (view' : View) (w' : World) :
  0 <= i -> loop_at view i = loop_stub file i ->
  read_loop file i view w = Ok (view', w') ->
  exists loop', view' = set_loop view i loop' /\ loop_read file i loop' /\
                written w' = written w.
Proof.
  intros Hi Hstub. unfold read_loop. rewrite Hstub.
  cbn [loop_stub offset num_cels].
  set (o := u16_at file (5 + 2 * i)).
  intros Hrun. apply bind_Ok in Hrun. destruct Hrun as ([] & w1 & Hseek & Hrun).
  unfold fseek in Hseek. injection Hseek as <-.
  apply bind_Ok in Hrun. destruct Hrun as (n & w2 & Hread & Hrun).
  rewrite fread_Uint8_field in Hread. cbn [fpos written] in Hread.
  cbn zeta in Hrun. cbn [set_num_cels num_cels] in Hrun.
  apply bind_Ok in Hrun. destruct Hrun as (l1 & w3 & Hoffs & Hrun).
  apply bind_Ok in Hrun. destruct Hrun as (l2 & w4 & Hhdrs & Hret).
  unfold ret in Hret. injection Hret as <- <-.
  exists l2. split; [reflexivity|].
  destruct (in_file file o) eqn:E.
  - injection Hread as <- <-.
    pose proof (u8_at_range file o) as Hrange.
    apply (read_cel_offsets_Ok (u8_at file o) o) in Hoffs; auto; try lia.
    + destruct Hoffs as (Ho1 & Hn1 & Htw1 & Hth1 & Hwr1 & _ & Hc1 & Hin1).
      cbn [num_cels] in Hn1. rewrite Hn1 in Hhdrs.
      apply (read_cel_headers_Ok (u8_at file o) (u8_at file o) o) in Hhdrs;
        auto; try lia.
      destruct Hhdrs as (Ho2 & Hn2 & Htw2 & Hth2 & Hwr2 & Hc2 & Hin2).
      cbn [set_num_cels offset num_cels total_width total_height adv written] in *.
      split; [|congruence].
      unfold loop_read. rewrite Ho2. fold o.
      split; [reflexivity|]. split; [congruence|].
      split; [rewrite Htw2, Htw1; reflexivity|].
      split; [rewrite Hth2, Hth1; reflexivity|].
      intros j Hj. rewrite Hn2, Hn1 in Hj.
      split; [rewrite Hc2 by lia; zcases|].
      split; [apply Hin1; exact Hj | apply Hin2; exact Hj].
    + intros j Hj. unfold cel_at, get. simpl. destruct (Z.to_nat j); reflexivity.
  - injection Hread as <- <-.
    rewrite for_zero in Hoffs. injection Hoffs as <- <-.
    rewrite for_zero in Hhdrs. injection Hhdrs as <- <-.
    split; [|reflexivity].
    unfold loop_read. cbn [set_num_cels offset num_cels total_width total_height].
    destruct (in_file_false _ _ E) as (_ & E0).
    do 4 (split; [auto|]). intros j Hj. lia.
Qed.

Lemma loop_at_view0 (n i : Z) : loop_at (set_num_loops view0 n) i = loop0.
Proof. unfold loop_at, get. simpl. destruct (Z.to_nat i); reflexivity. Qed.

(** Lines 160-162: the reads follow one another from offset 5; once the
    end of the file is reached the remaining offsets stay 0. *)
Lemma read_loop_offsets_Ok (n : Z) (view : View) (w : World)
      (view' : View) (w' : World) :
  0 <= n -> fpos w = 5 ->
  (forall i, 0 <= i -> loop_at view i = loop0) ->
  for_ n (read_loop_offset file) view w = Ok (view', w') ->
  num_loops view' = num_loops view /\ written w' = written w /\
  (fpos w' = 5 + 2 * n \/
   (in_file file (fpos w') = false /\ fpos w' <= 5 + 2 * n)) /\
  forall i, 0 <= i ->
    loop_at view' i = if i <? n then loop_stub file i else loop0.
Proof.
  intros Hn Hpos Hzero Hrun.
  pose (I := fun (m : Z) (v : View) (w1 : World) =>
    num_loops v = num_loops view /\ written w1 = written w /\
    (fpos w1 = 5 + 2 * m \/
     (in_file file (fpos w1) = false /\ fpos w1 <= 5 + 2 * m)) /\
    forall i, 0 <= i ->
      loop_at v i = if i <? m then loop_stub file i else loop0).
  assert (HI : I n view' w').
  { apply (for_inv I (read_loop_offset file) n view w); auto.
    - unfold I. split; [|split; [|split; [left; lia|]]]; auto.
      intros i Hi. rewrite Hzero by lia. zcases.
    - intros m v w1 v1 w2 Hm (Inum & Iwr & Ipos & Iloop) Hstep.
      unfold read_loop_offset, bind, ret in Hstep.
      rewrite fread_Uint16_cases in Hstep.
      rewrite (Iloop m) in Hstep by lia.
      destruct (Z.ltb_spec m m) as [|_]; [lia|].
      cbn [offset loop0] in Hstep.
      assert (Hat : forall off i, 0 <= i ->
                loop_at (set_loop v m (set_offset loop0 off)) i =
                if i <? m + 1
                then (if i =? m then set_offset loop0 off else loop_stub file i)
                else loop0).
      { intros off i Hi. rewrite loop_at_set_loop by lia.
        rewrite (Iloop i) by lia. zcases. }
      destruct (in_file file (fpos w1 + 1)) eqn:E1.
      + injection Hstep as <- <-.
        destruct Ipos as [Ipos | (Ieof & _)].
        * unfold I.
          split; [exact Inum|split; [exact Iwr|split; [left; cbn [adv fpos]; lia|]]].
          intros i Hi. rewrite Hat by lia. rewrite Ipos.
             zcases; subst; reflexivity.
        * rewrite (in_file_later file (fpos w1) (fpos w1 + 1)) in E1 by (auto; lia).
          discriminate.
      + destruct (in_file file (fpos w1)) eqn:E0; [discriminate|].
        injection Hstep as <- <-.
        assert (Hle : fpos w1 <= 5 + 2 * m) by (destruct Ipos; lia).
        assert (Hz : u16_at file (5 + 2 * m) = 0).
        { unfold u16_at.
          destruct (in_file_false file (5 + 2 * m)) as (_ & ->);
            [apply (in_file_later file (fpos w1)); auto|].
          destruct (in_file_false file (5 + 2 * m + 1)) as (_ & ->);
            [apply (in_file_later file (fpos w1)); auto; lia|].
          reflexivity. }
        unfold I.
        split; [exact Inum|split; [exact Iwr|split; [right; split; [exact E0 | lia]|]]].
        intros i Hi. rewrite Hat by lia.
        zcases. subst. unfold loop_stub. rewrite Hz. reflexivity. }
  exact HI.
Qed.

(** Lines 165-194. *)
Lemma read_loops_Ok (n N : Z) (view : View) (w : World)
      (view' : View) (w' : World) :
  0 <= n <= N ->
  (forall i, 0 <= i ->
     loop_at view i = if i <? N then loop_stub file i else loop0) ->
  for_ n (read_loop file) view w = Ok (view', w') ->
  num_loops view' = num_loops view /\ written w' = written w /\
  forall i, 0 <= i ->
    (i < n -> loop_read file i (loop_at view' i)) /\
    (n <= i -> loop_at view' i = if i <? N then loop_stub file i else loop0).
Proof.
  intros Hn Hstub Hrun.
  pose (I := fun (m : Z) (v : View) (w1 : World) =>
    num_loops v = num_loops view /\ written w1 = written w /\
    forall i, 0 <= i ->
      (i < m -> loop_read file i (loop_at v i)) /\
      (m <= i -> loop_at v i = if i <? N then loop_stub file i else loop0)).
  assert (HI : I n view' w').
  { apply (for_inv I (read_loop file) n view w); auto; try lia.
    - unfold I. repeat split; auto; try lia.
    - intros m v w1 v1 w2 Hm (Inum & Iwr & Iloop) Hstep.
      apply read_loop_Ok in Hstep; [|lia|].
      + destruct Hstep as (loop' & -> & Hread & Hwr).
        unfold I.
        split; [exact Inum | split; [congruence|]].
        intros i Hi. split.
        * intros Him. rewrite loop_at_set_loop by lia.
          destruct (Z.eqb_spec i m) as [->|Hne]; [exact Hread|].
          apply Iloop; lia.
        * intros Him. rewrite loop_at_set_loop by lia.
          destruct (Z.eqb_spec i m) as [->|Hne]; [lia|].
          apply Iloop; lia.
      + rewrite (proj2 (Iloop m ltac:(lia)) ltac:(lia)).
        destruct (Z.ltb_spec m N); [reflexivity | lia]. }
  exact HI.
Qed.

(** Lines 150-194: what the file puts into the view. *)
Lemma read_view_Ok (w0 : World) (view : View) (w : World) :
  read_view file w0 = Ok (view, w) ->
  num_loops view = u8_at file 2 /\ written w = written w0 /\
  forall i, 0 <= i ->
    (i < num_loops view -> loop_read file i (loop_at view i)) /\
    (num_loops view <= i -> loop_at view i = loop0).
Proof.
  unfold read_view. intros Hrun.
  apply bind_Ok in Hrun. destruct Hrun as ([] & w1 & Hseek & Hrun).
  unfold fseek in Hseek. injection Hseek as <-.
  apply bind_Ok in Hrun. destruct Hrun as (n & w2 & Hread & Hrun).
  rewrite fread_Uint8_field in Hread. cbn [fpos written num_loops view0] in Hread.
  assert (Hn : n = u8_at file 2 /\ written w2 = written w0).
  { destruct (in_file file 2) eqn:E.
    - injection Hread as <- <-. auto.
    - injection Hread as <- <-. destruct (in_file_false _ _ E) as (_ & ->). auto. }
  destruct Hn as (-> & Hw2). clear Hread.
  cbn zeta in Hrun.
  apply bind_Ok in Hrun. destruct Hrun as ([] & w3 & Hseek & Hrun).
  unfold fseek in Hseek. injection Hseek as <-.
  apply bind_Ok in Hrun. destruct Hrun as (v1 & w4 & Hoffs & Hrun).
  cbn [set_num_loops num_loops] in Hoffs.
  pose proof (u8_at_range file 2) as Hrange.
  apply (read_loop_offsets_Ok (u8_at file 2)) in Hoffs; auto; try lia.
  - destruct Hoffs as (Hn1 & Hwr1 & _ & Hl1).
    cbn [set_num_loops num_loops] in Hn1. rewrite Hn1 in Hrun.
    apply (read_loops_Ok (u8_at file 2) (u8_at file 2)) in Hrun; auto; try lia.
    destruct Hrun as (Hn2 & Hwr2 & Hl2).
    rewrite Hn2, Hn1.
    split; [reflexivity | split; [rewrite Hwr2, Hwr1; exact Hw2|]].
    intros i Hi. split; [apply Hl2; exact Hi|].
    intros Hge. rewrite (proj2 (Hl2 i Hi) Hge).
    destruct (Z.ltb_spec i (u8_at file 2)); [lia | reflexivity].
  - intros i Hi. apply loop_at_view0.
Qed.
Lemma read_cel_header_runs (j : Z) (loop : Loop) (w : World) :
  in_file file (header_offset (cel_at loop j) + 2) = true ->
  exists loop' w', read_cel_header file j loop w = Ok (loop', w').
Proof.
  intros E2. set (h := header_offset (cel_at loop j)) in *.
  assert (E0 : in_file file h = true) by (apply (in_file_earlier _ _ _ E2); lia).
  assert (E1 : in_file file (h + 1) = true) by (apply (in_file_earlier _ _ _ E2); lia).
  unfold read_cel_header, bind, ret, fseek, ftell. fold h.
  rewrite fread_Uint8_field. cbn [fpos written]. rewrite E0.
  rewrite fread_Uint8_field. cbn [adv fpos written]. rewrite E1.
  rewrite fread_Uint8_local. cbn [adv fpos written].
  replace (h + 1 + 1) with (h + 2) by lia. rewrite E2.
  eexists. eexists. reflexivity.
Qed.

Lemma read_cel_offsets_total (n o : Z) (loop : Loop) (w : World) :
  0 <= n -> offset loop = o -> fpos w = o + 1 ->
  (forall j, 0 <= j -> cel_at loop j = cel0) ->
  (forall j, 0 <= j < n -> in_file file (o + 2 + 2 * j) = true) ->
  exists loop' w', for_ n (read_cel_offset file) loop w = Ok (loop', w').
Proof.
  intros Hn Ho Hpos Hzero Hin. apply for_total; [exact Hn|].
  intros m l w1 Hm Hrun.
  apply (read_cel_offsets_Ok m o) in Hrun; auto; try lia.
  destruct Hrun as (_ & _ & _ & _ & _ & Hp & _).
  unfold read_cel_offset, bind, ret. rewrite fread_Uint16_cases.
  replace (fpos w1 + 1) with (o + 2 + 2 * m) by lia.
  rewrite (Hin m Hm). eexists. eexists. reflexivity.
Qed.

Lemma read_cel_headers_total (N o : Z) (loop : Loop) (w : World) :
  0 <= N -> offset loop = o ->
  (forall j, 0 <= j ->
     cel_at loop j = if j <? N then cel_stub file o j else cel0) ->
  (forall j, 0 <= j < N ->
     in_file file (Uint16 (o + u16_at file (o + 1 + 2 * j)) + 2) = true) ->
  exists loop' w', for_ N (read_cel_header file) loop w = Ok (loop', w').
Proof.
  intros HN Ho Hstub Hin. apply for_total; [exact HN|].
  intros m l w1 Hm Hrun.
  apply (read_cel_headers_Ok m N o) in Hrun; auto; try lia.
  destruct Hrun as (_ & _ & _ & _ & _ & Hc & _).
  apply read_cel_header_runs. rewrite (Hc m) by lia.
  destruct (Z.ltb_spec m m); [lia|].
  destruct (Z.ltb_spec m N); [|lia].
  apply Hin. exact Hm.
Qed.

Lemma read_loop_total (i : Z) (view : View) (w : World) :
  0 <= i -> loop_at view i = loop_stub file i ->
  loop_laid_out file i ->
  exists view' w', read_loop file i view w = Ok (view', w').
Proof.
  intros Hi Hstub Hlaid. unfold loop_laid_out in Hlaid. cbn zeta in Hlaid.
  unfold read_loop. rewrite Hstub. cbn [loop_stub offset num_cels].
  set (o := u16_at file (5 + 2 * i)) in *.
  unfold bind at 1. unfold fseek at 1.
  unfold bind at 1. rewrite fread_Uint8_field. cbn [fpos written].
  pose proof (u8_at_range file o) as Hrange.
  destruct (in_file file o) eqn:E.
  - cbn [set_num_cels num_cels].
    destruct (read_cel_offsets_total (u8_at file o) o
                (mkLoop o (u8_at file o) 0 0 []) (adv 1 (mkWorld o (written w))))
      as (l1 & w3 & Hoffs); auto; try lia.
    { intros j Hj. unfold cel_at, get. simpl. destruct (Z.to_nat j); reflexivity. }
    { intros j Hj. apply Hlaid. exact Hj. }
    rewrite (bind_step _ _ _ _ _ Hoffs).
    apply (read_cel_offsets_Ok (u8_at file o) o) in Hoffs; auto; try lia.
    + destruct Hoffs as (Ho1 & Hn1 & _ & _ & _ & _ & Hc1 & _).
      cbn [num_cels] in Hn1. rewrite Hn1.
      destruct (read_cel_headers_total (u8_at file o) o l1 w3)
        as (l2 & w4 & Hhdrs); auto; try lia.
      { intros j Hj. apply Hlaid. exact Hj. }
      rewrite (bind_step _ _ _ _ _ Hhdrs). unfold ret.
      eexists. eexists. reflexivity.
    + intros j Hj. unfold cel_at, get. simpl. destruct (Z.to_nat j); reflexivity.
  - cbn [set_num_cels num_cels]. unfold bind. rewrite !for_zero. unfold ret.
    eexists. eexists. reflexivity.
Qed.

Lemma read_loop_offsets_total (n : Z) (view : View) (w : World) :
  0 <= n -> fpos w = 5 ->
  (forall i, 0 <= i -> loop_at view i = loop0) ->
  (forall i, 0 <= i < n ->
     in_file file (5 + 2 * i) = in_file file (5 + 2 * i + 1)) ->
  exists view' w', for_ n (read_loop_offset file) view w = Ok (view', w').
Proof.
  intros Hn Hpos Hzero Hwhole. apply for_total; [exact Hn|].
  intros m v w1 Hm Hrun.
  apply (read_loop_offsets_Ok m) in Hrun; auto; try lia.
  destruct Hrun as (_ & _ & Hp & _).
  unfold read_loop_offset, bind, ret. rewrite fread_Uint16_cases.
  destruct (in_file file (fpos w1 + 1)) eqn:E1; [eexists; eexists; reflexivity|].
  destruct (in_file file (fpos w1)) eqn:E0; [|eexists; eexists; reflexivity].
  destruct Hp as [Hp | (Hp & _)]; [|congruence].
  rewrite Hp in E0, E1. rewrite (Hwhole m Hm) in E0. congruence.
Qed.

Lemma read_loops_total (N : Z) (view : View) (w : World) :
  0 <= N ->
  (forall i, 0 <= i ->
     loop_at view i = if i <? N then loop_stub file i else loop0) ->
  (forall i, 0 <= i < N -> loop_laid_out file i) ->
  exists view' w', for_ N (read_loop file) view w = Ok (view', w').
Proof.
  intros HN Hstub Hlaid. apply for_total; [exact HN|].
  intros m v w1 Hm Hrun.
  apply (read_loops_Ok m N) in Hrun; auto; try lia.
  destruct Hrun as (_ & _ & Hl).
  apply read_loop_total; [lia | | apply Hlaid; exact Hm].
  rewrite (proj2 (Hl m ltac:(lia)) ltac:(lia)).
  destruct (Z.ltb_spec m N); [reflexivity | lia].
Qed.

(** Lines 150-194 deliver a view for every file that is laid out. *)
Lemma read_view_total (w0 : World) :
  laid_out file -> exists view w, read_view file w0 = Ok (view, w).
Proof.
  intros Hlaid. unfold read_view.
  unfold bind at 1. unfold fseek at 1.
  unfold bind at 1. rewrite fread_Uint8_field. cbn [fpos written num_loops view0].
  assert (Hread : exists w2,
            (if in_file file 2
             then Ok (u8_at file 2, adv 1 (mkWorld 2 (written w0)))
             else Ok (0, mkWorld 2 (written w0))) = Ok (u8_at file 2, w2)).
  { destruct (in_file file 2) eqn:E; [eexists; reflexivity|].
    destruct (in_file_false _ _ E) as (_ & ->). eexists; reflexivity. }
  destruct Hread as (w2 & ->).
  cbn [set_num_loops num_loops].
  unfold bind at 1. unfold fseek at 1.
  pose proof (u8_at_range file 2) as Hrange.
  destruct (read_loop_offsets_total (u8_at file 2)
              (mkView (loops view0) (u8_at file 2)) (mkWorld 5 (written w2)))
    as (v1 & w4 & Hoffs); auto; try lia.
  { intros i Hi. apply (loop_at_view0 (u8_at file 2)). }
  { intros i Hi. apply Hlaid. exact Hi. }
  rewrite (bind_step _ _ _ _ _ Hoffs).
  apply (read_loop_offsets_Ok (u8_at file 2)) in Hoffs; auto; try lia.
  - destruct Hoffs as (Hn1 & _ & _ & Hl1). cbn [num_loops] in Hn1. rewrite Hn1.
    apply read_loops_total; [lia | exact Hl1 |].
    intros i Hi. apply Hlaid. exact Hi.
  - intros i Hi. apply (loop_at_view0 (u8_at file 2)).
Qed.
End ReadView.

Lemma info_bits (file : list byte) (p : Z) :
  Z.shiftr (Z.land (u8_at file p) 0x80) 7 = Z.b2z (Z.testbit (u8_at file p) 7) /\
  Z.shiftr (Z.land (u8_at file p) 0x70) 4 = Z.land (Z.shiftr (u8_at file p) 4) 7.
Proof.
  unfold u8_at. destruct (nth_error file (Z.to_nat p)) as [c|].
  - destruct c; split; reflexivity.
  - split; reflexivity.
Qed.

Lemma read_view_fresh (file : list byte) (w0 : World) (view : View) (w : World) :
  read_view file w0 = Ok (view, w) -> fresh view.
Proof.
  intros Hrun. apply read_view_Ok in Hrun. destruct Hrun as (_ & _ & Hl).
  assert (Hnn : forall i, 0 <= i ->
            total_width (loop_at view i) = 0 /\ total_height (loop_at view i) = 0).
  { intros i Hi. destruct (Hl i Hi) as (Hlt & Hge).
    destruct (Z.lt_ge_cases i (num_loops view)) as [H|H].
    - destruct (Hlt H) as (_ & _ & ? & ? & _). auto.
    - rewrite (Hge H). auto. }
  intros i. destruct (Z.lt_ge_cases i 0) as [H|H].
  - rewrite loop_at_neg by exact H. apply Hnn. lia.
  - apply Hnn. exact H.
Qed.

(** C10: a loop's [total_width] is an unsigned 8-bit field, so for every
    view read from a file what [GetSurfaceSize] stores and uses for each
    loop is the sum of the loop's cel widths modulo 256, and the width of
    the canvas is twice the largest of these reduced values, not of the
    sums. *)
Theorem GetSurfaceSize_width_mod_256 (file : list byte) (view : View) (w : World) :
  read_view file world0 = Ok (view, w) ->
  (forall i, 0 <= i < num_loops view ->
     total_width (loop_at (snd (GetSurfaceSize view)) i) =
     sum_widths (loop_at view i) mod 256) /\
  rect_w (fst (GetSurfaceSize view)) =
    2 * zmax (map (fun loop => sum_widths loop mod 256) (view_loops view)).
Proof.
  intros Hread. apply read_view_fresh in Hread.
  destruct (GetSurfaceSize_fresh view Hread) as (Hl & Hw & _).
  split; [|exact Hw].
  intros i Hi. apply Hl. exact Hi.
Qed.

Lemma GetSurfaceSize_width_mod_256_witness :
  read_view file_wide world0 = Ok (view_wide, mkWorld 30 []) /\
  map sum_widths (view_loops view_wide) = [320] /\
  (forall i, 0 <= i < num_loops view_wide ->
     total_width (loop_at (snd (GetSurfaceSize view_wide)) i) =
     sum_widths (loop_at view_wide i) mod 256) /\
  rect_w (fst (GetSurfaceSize view_wide)) =
    2 * zmax (map (fun loop => sum_widths loop mod 256) (view_loops view_wide)).
Proof.
  split; [reflexivity|]. split; [reflexivity|].
  apply (GetSurfaceSize_width_mod_256 file_wide view_wide (mkWorld 30 [])).
  reflexivity.
Defined.

(** C5, amended: the view is read as the format lays it out, with
    [header_offset] and [data_offset] kept modulo 65536.  [num_loops] is the
    byte at offset 2; the loop offsets are the little-endian 16-bit values
    from offset 5 on; a loop's [num_cels] is the byte at its offset and is
    followed by the 16-bit cel offsets, each stored after adding the loop
    offset (in a 16-bit field); a cel's header is its width, its height and
    an info byte whose bit 7 is [is_mirrored], bits 6-4
    [unmirrored_loop_num] and bits 3-0 [transparency_color], and
    [data_offset] is the position right after these three bytes (in a
    16-bit field).  The cel offsets and the cel headers lie inside the
    file.  Every file that is laid out is read to the end. *)
Theorem read_view_layout (file : list byte) :
  (laid_out file -> exists view w, read_view file world0 = Ok (view, w)) /\
  forall view w,
    read_view file world0 = Ok (view, w) ->
    num_loops view = u8_at file 2 /\
    forall i, 0 <= i < num_loops view ->
      let loop := loop_at view i in
      offset loop = u16_at file (5 + 2 * i) /\
      num_cels loop = u8_at file (offset loop) /\
      forall j, 0 <= j < num_cels loop ->
        let cel := cel_at loop j in
        let info := u8_at file (header_offset cel + 2) in
        in_file file (offset loop + 1 + 2 * j + 1) = true /\
        header_offset cel =
          Uint16 (offset loop + u16_at file (offset loop + 1 + 2 * j)) /\
        in_file file (header_offset cel + 2) = true /\
        width cel = u8_at file (header_offset cel) /\
        height cel = u8_at file (header_offset cel + 1) /\
        is_mirrored cel = Z.b2z (Z.testbit info 7) /\
        unmirrored_loop_num cel = Z.land (Z.shiftr info 4) 7 /\
        transparency_color cel = Z.land info 15 /\
        data_offset cel = Uint16 (header_offset cel + 3).
Proof.
  split; [apply read_view_total|].
  intros view w Hrun. apply read_view_Ok in Hrun. destruct Hrun as (Hn & _ & Hl).
  split; [exact Hn|].
  intros i Hi loop.
  destruct (Hl i ltac:(lia)) as (Hread & _).
  destruct (Hread ltac:(lia)) as (Ho & Hnc & _ & _ & Hcels).
  fold loop in Ho, Hnc, Hcels.
  split; [exact Ho|]. split; [exact Hnc|].
  intros j Hj cel info.
  destruct (Hcels j Hj) as (Hcel & Hin1 & Hin2).
  fold cel in Hcel. subst info. rewrite Hcel.
  unfold cel_spec. cbn [header_offset data_offset width height
                        transparency_color is_mirrored unmirrored_loop_num].
  unfold cel_spec in Hin2. cbn [header_offset] in Hin2.
  set (h := Uint16 (offset loop + u16_at file (offset loop + 1 + 2 * j))) in *.
  destruct (info_bits file (h + 2)) as (Hb7 & Hb64).
  split; [rewrite <- Hin1; f_equal; lia|].
  repeat split; auto.
Qed.

Lemma file_mirror_laid_out : laid_out file_mirror.
Proof.
  intros i Hi. change (u8_at file_mirror 2) with 2 in Hi.
  assert (Hloop : forall k, u16_at file_mirror (5 + 2 * k) = 9 ->
                            loop_laid_out file_mirror k).
  { intros k Hk j. cbn zeta. rewrite Hk.
    change (u8_at file_mirror 9) with 1. intros Hj.
    assert (j = 0) as -> by lia. split; reflexivity. }
  assert (i = 0 \/ i = 1) as [-> | ->] by lia;
    (split; [reflexivity | apply Hloop; reflexivity]).
Qed.

Lemma read_view_layout_witness :
  laid_out file_mirror /\
  (exists view w, read_view file_mirror world0 = Ok (view, w)) /\
  read_view file_mirror world0 = Ok (view_mirror, mkWorld 15 []) /\
  num_loops view_mirror = u8_at file_mirror 2 /\
  forall i, 0 <= i < num_loops view_mirror ->
    let loop := loop_at view_mirror i in
    offset loop = u16_at file_mirror (5 + 2 * i) /\
    num_cels loop = u8_at file_mirror (offset loop) /\
    forall j, 0 <= j < num_cels loop ->
      let cel := cel_at loop j in
      let info := u8_at file_mirror (header_offset cel + 2) in
      in_file file_mirror (offset loop + 1 + 2 * j + 1) = true /\
      header_offset cel =
        Uint16 (offset loop + u16_at file_mirror (offset loop + 1 + 2 * j)) /\
      in_file file_mirror (header_offset cel + 2) = true /\
      width cel = u8_at file_mirror (header_offset cel) /\
      height cel = u8_at file_mirror (header_offset cel + 1) /\
      is_mirrored cel = Z.b2z (Z.testbit info 7) /\
      unmirrored_loop_num cel = Z.land (Z.shiftr info 4) 7 /\
      transparency_color cel = Z.land info 15 /\
      data_offset cel = Uint16 (header_offset cel + 3).
Proof.
  split; [exact file_mirror_laid_out|].
  split; [apply (proj1 (read_view_layout file_mirror)); exact file_mirror_laid_out|].
  split; [reflexivity|].
  apply (proj2 (read_view_layout file_mirror) view_mirror (mkWorld 15 [])).
  reflexivity.
Defined.

(** C5, as stated, fails.  In [file_wrap] the loop is at offset 7 and the
    relative offset of its cel is 65532: [header_offset] is 3, not the sum
    65539, and the header is read from bytes 3 to 5.  In [file_far] the
    header of the cel ends with byte 65536: the stream stands at 65537
    after it, and [data_offset] is 1. *)
Lemma header_offset_wraps :
  (exists view w,
     read_view file_wrap world0 = Ok (view, w) /\
     List.length file_wrap = 12%nat /\
     offset (loop_at view 0) = 7 /\
     u16_at file_wrap (offset (loop_at view 0) + 1 + 2 * 0) = 65532 /\
     header_offset (cel_at (loop_at view 0) 0) = 3 /\
     header_offset (cel_at (loop_at view 0) 0) <>
       offset (loop_at view 0) + u16_at file_wrap (offset (loop_at view 0) + 1 + 2 * 0) /\
     transparency_color (cel_at (loop_at view 0) 0) = u8_at file_wrap 5) /\
  (exists view w,
     read_view file_far world0 = Ok (view, w) /\
     header_offset (cel_at (loop_at view 0) 0) = 65534 /\
     fpos w = 65537 /\
     data_offset (cel_at (loop_at view 0) 0) = 1 /\
     data_offset (cel_at (loop_at view 0) 0) <> fpos w).
Proof.
  split.
  - destruct (read_view file_wrap world0) as [[view w]|] eqn:E;
      [|vm_compute in E; discriminate].
    vm_compute in E. injection E as <- <-.
    eexists. eexists. split; [reflexivity|].
    repeat split; vm_compute; congruence.
  - destruct (read_view file_far world0) as [[view w]|] eqn:E;
      [|vm_compute in E; discriminate].
    vm_compute in E. injection E as <- <-.
    eexists. eexists. split; [reflexivity|].
    repeat split; vm_compute; congruence.
Qed.

(** ** Drawing *)

Lemma write_doubled_Ok (y step : Z) (c : SDL_Color) (x : Z) (w : World) :
  write_doubled y step c x w =
  Ok (x + 2 * step,
      mkWorld (fpos w)
        (written w ++ [ mkWrite x y (c_r c) (c_g c) (c_b c) (c_a c);
                        mkWrite (x + step) y (c_r c) (c_g c) (c_b c) (c_a c) ])).
Proof.
  unfold write_doubled, for_. change (Z.to_nat 2) with 2%nat.
  cbn [for_from]. unfold bind, SDL_WriteSurfacePixel, ret.
  cbn [fpos written]. rewrite <- app_assoc. cbn [app].
  eqz.
Qed.

Lemma write_run_from (cel : Cel) (y step color : Z) (k : nat) :
  forall (i x : Z) (w : World),
    for_from k i (fun _ x => write_doubled y step (run_color cel color) x) x w =
    Ok (x + 2 * Z.of_nat k * step,
        mkWorld (fpos w) (written w ++ doubled cel y step x (repeat color k))).
Proof.
  induction k as [|k IH]; intros i x w.
  - simpl. unfold ret. rewrite app_nil_r. destruct w. simpl. eqz.
  - cbn [for_from]. unfold bind. rewrite write_doubled_Ok. rewrite IH.
    cbn [fpos written repeat doubled]. rewrite <- app_assoc.
    eqz.
Qed.

Lemma write_run_Ok (cel : Cel) (y step color count x : Z) (w : World) :
  0 <= count ->
  write_run cel y step color count x w =
  Ok (x + 2 * count * step,
      mkWorld (fpos w)
        (written w ++ doubled cel y step x (repeat color (Z.to_nat count)))).
Proof.
  intros Hc. unfold write_run, for_. rewrite write_run_from.
  rewrite Z2Nat.id by exact Hc. reflexivity.
Qed.

Lemma doubled_app (cel : Cel) (y step : Z) (a b : list Z) (x : Z) :
  doubled cel y step x (a ++ b) =
  doubled cel y step x a
    ++ doubled cel y step (x + 2 * Z.of_nat (List.length a) * step) b.
Proof.
  revert x; induction a as [|c a IH]; intros x.
  - simpl. f_equal. lia.
  - cbn [app doubled List.length]. rewrite IH. cbn [app]. eqz.
Qed.

Lemma doubled_length (cel : Cel) (y step : Z) (colors : list Z) (x : Z) :
  List.length (doubled cel y step x colors) = (2 * List.length colors)%nat.
Proof.
  revert x; induction colors as [|c cs IH]; intros x; simpl; [reflexivity|].
  rewrite IH. lia.
Qed.

(** The nibbles of lines 229-230 are quotient and remainder by 16. *)
Lemma nibbles (c : byte) :
  Z.land (Z.shiftr (byte_val c) 4) 0x0F = byte_val c / 16 /\
  Z.land (byte_val c) 0x0F = byte_val c mod 16.
Proof. destruct c; split; reflexivity. Qed.

(** The loop of lines 220-249 on a row that ends in a zero byte. *)
Lemma row_loop_Ok (cel : Cel) (y step : Z) (cs rest : list byte) :
  Forall nonzero cs ->
  forall (x : Z) (w : World),
    row_loop (cs ++ x00 :: rest) cel y step x w =
    Ok (tt, mkWorld (fpos w + Z.of_nat (List.length cs) + 1)
                    (written w ++ doubled cel y step x (expand (map run_of cs)))).
Proof.
  induction 1 as [|c cs Hc Hcs IH]; intros x w.
  - simpl. rewrite app_nil_r. eqz.
  - cbn [app row_loop].
    destruct (Z.eqb_spec (byte_val c) 0) as [E|_]; [contradiction|].
    destruct (nibbles c) as (-> & ->).
    unfold bind. rewrite write_run_Ok
      by (apply Z.mod_pos_bound; lia).
    rewrite IH. cbn [fpos written map expand flat_map run_of fst snd List.length].
    fold (expand (map run_of cs)).
    rewrite doubled_app, repeat_length, <- app_assoc.
    rewrite Z2Nat.id by (apply Z.mod_pos_bound; lia).
    eqz.
Qed.

Lemma nth_doubled (cel : Cel) (y step : Z) (colors : list Z) :
  forall (x : Z) (k : nat),
    (k < List.length colors)%nat ->
    nth (2 * k) (doubled cel y step x colors) write0 =
      pixel cel y (nth k colors 0) (x + 2 * Z.of_nat k * step) /\
    nth (2 * k + 1) (doubled cel y step x colors) write0 =
      pixel cel y (nth k colors 0) (x + (2 * Z.of_nat k + 1) * step).
Proof.
  induction colors as [|c cs IH]; intros x k Hk; [simpl in Hk; lia|].
  destruct k as [|k].
  - cbn [doubled nth Nat.mul Nat.add]. split; f_equal; lia.
  - replace (2 * S k)%nat with (S (S (2 * k))) by lia.
    replace (S (S (2 * k)) + 1)%nat with (S (S (2 * k + 1))) by lia.
    cbn [doubled nth]. simpl in Hk.
    destruct (IH (x + 2 * step) k ltac:(lia)) as (-> & ->).
    split; f_equal; lia.
Qed.

Lemma expand_length (runs : list (Z * Z)) :
  Forall (fun run => 0 <= snd run) runs ->
  Z.of_nat (List.length (expand runs)) = zsum (map snd runs).
Proof.
  induction 1 as [|run runs Hr _ IH]; [reflexivity|].
  cbn [expand flat_map map zsum fold_right].
  rewrite length_app, repeat_length, Nat2Z.inj_add.
  fold (expand runs). rewrite IH. unfold zsum. lia.
Qed.

Lemma run_of_counts (cs : list byte) :
  Forall (fun run => 0 <= snd run) (map run_of cs).
Proof.
  apply Forall_forall. intros run Hin. apply in_map_iff in Hin.
  destruct Hin as (c & <- & _). simpl. apply Z.mod_pos_bound. lia.
Qed.

(** C2: the bytes of a row are read one at a time up to a zero byte, which
    is read and yields nothing; every byte before it yields a run whose
    colour is its high nibble and whose length is its low nibble, drawn in
    order; a run of length 0 yields no pixels and the next byte is read.
    What follows the zero byte is not read. *)
Theorem row_loop_reads_runs (cel : Cel) (y step x : Z) (w : World)
        (cs rest : list byte) :
  Forall nonzero cs ->
  row_loop (cs ++ x00 :: rest) cel y step x w =
    Ok (tt, mkWorld (fpos w + Z.of_nat (List.length cs) + 1)
                    (written w ++ doubled cel y step x (expand (map run_of cs)))) /\
  map run_of cs =
    map (fun c => (Z.land (Z.shiftr (byte_val c) 4) 0x0F,
                   Z.land (byte_val c) 0x0F)) cs /\
  (forall color, expand [(color, 0)] = []) /\
  row_loop (x00 :: rest) cel y step x w =
    Ok (tt, mkWorld (fpos w + 1) (written w)) /\
  map run_of [x31] = [(3, 1)] /\
  map run_of [xa5] = [(10, 5)].
Proof.
  intros Hcs. split; [apply row_loop_Ok; exact Hcs|].
  split; [|split; [reflexivity | split; [reflexivity | split; reflexivity]]].
  apply map_ext. intros c. unfold run_of.
  destruct (nibbles c) as (-> & ->). reflexivity.
Qed.

(** A run of length 0 between two runs; nothing is read after the end. *)
Lemma row_loop_reads_runs_witness :
  row_loop ([x31; xa0; x21] ++ x00 :: [x55]) cel0 7 1 0 world0 =
    Ok (tt, mkWorld 4 [ mkWrite 0 7 0 170 170 255; mkWrite 1 7 0 170 170 255;
                        mkWrite 2 7 0 170 0 255; mkWrite 3 7 0 170 0 255 ]).
Proof.
  destruct (row_loop_reads_runs cel0 7 1 0 world0 [x31; xa0; x21] [x55]) as (H & _).
  - repeat constructor; discriminate.
  - rewrite H. reflexivity.
Defined.

Lemma nth_doubled_point (cel : Cel) (y step : Z) (colors : list Z) (x : Z) (n : nat) :
  (n < List.length (doubled cel y step x colors))%nat ->
  px (nth n (doubled cel y step x colors) write0) = x + Z.of_nat n * step /\
  py (nth n (doubled cel y step x colors) write0) = y.
Proof.
  rewrite doubled_length. intros Hn.
  destruct (Nat.Even_or_Odd n) as [(k & ->) | (k & ->)].
  - destruct (nth_doubled cel y step colors x k ltac:(lia)) as (-> & _).
    unfold pixel. cbn [px py]. split; [|reflexivity].
    rewrite Nat2Z.inj_mul. change (Z.of_nat 2) with 2. reflexivity.
  - destruct (nth_doubled cel y step colors x k ltac:(lia)) as (_ & ->).
    unfold pixel. cbn [px py]. split; [|reflexivity].
    rewrite Nat2Z.inj_add, Nat2Z.inj_mul.
    change (Z.of_nat 2) with 2. change (Z.of_nat 1) with 1. reflexivity.
Qed.

(** One row of a cel, from a file whose bytes at the position of the
    [FILE] are a row ending in a zero byte. *)
Lemma draw_row_Ok (file : list byte) (cel : Cel) (i cel_x y : Z) (w : World)
      (cs rest : list byte) :
  skipn (Z.to_nat (fpos w)) file = cs ++ x00 :: rest ->
  Forall nonzero cs ->
  draw_row file cel i cel_x y w =
  Ok (tt, mkWorld (fpos w + Z.of_nat (List.length cs) + 1)
        (written w ++ doubled cel y (snd (row_start cel i cel_x))
                        (fst (row_start cel i cel_x)) (expand (map run_of cs)))).
Proof.
  intros Hfile Hcs. unfold draw_row.
  destruct (row_start cel i cel_x) as [x step]. rewrite Hfile.
  apply row_loop_Ok. exact Hcs.
Qed.

(** C3: inside loop [i], the rows of a cel that is marked as mirrored and
    whose [unmirrored_loop_num] is not [i] are drawn from
    [cel_x + width * 2 - 1] leftwards, one column per write; the rows of
    any other cel, also of a mirrored one whose [unmirrored_loop_num] is
    [i], are drawn from [cel_x] rightwards. *)
Theorem draw_row_direction (file : list byte) (cel : Cel) (i cel_x y : Z)
        (w : World) (cs rest : list byte) :
  skipn (Z.to_nat (fpos w)) file = cs ++ x00 :: rest ->
  Forall nonzero cs ->
  exists ws,
    draw_row file cel i cel_x y w =
      Ok (tt, mkWorld (fpos w + Z.of_nat (List.length cs) + 1) (written w ++ ws)) /\
    List.length ws = (2 * List.length (expand (map run_of cs)))%nat /\
    forall n, (n < List.length ws)%nat ->
      py (nth n ws write0) = y /\
      (is_mirrored cel <> 0 /\ unmirrored_loop_num cel <> i ->
         px (nth n ws write0) = cel_x + width cel * 2 - 1 - Z.of_nat n) /\
      (is_mirrored cel = 0 \/ unmirrored_loop_num cel = i ->
         px (nth n ws write0) = cel_x + Z.of_nat n).
Proof.
  intros Hfile Hcs. eexists. split; [apply (draw_row_Ok _ _ _ _ _ _ _ _ Hfile Hcs)|].
  split; [apply doubled_length|].
  intros n Hn. destruct (nth_doubled_point _ _ _ _ _ _ Hn) as (Hx & Hy).
  split; [exact Hy|]. rewrite Hx. unfold row_start.
  destruct (Z.eqb_spec (is_mirrored cel) 0) as [Em|Em];
    destruct (Z.eqb_spec (unmirrored_loop_num cel) i) as [En|En];
    cbn [negb andb fst snd]; split; intros H; lia.
Qed.

(** The second loop of [file_mirror]: the cel belongs to loop 0 and is
    drawn from the right in loop 1. *)
Lemma draw_row_direction_witness :
  exists ws,
    draw_row file_mirror (cel_at (loop_at view_mirror 1) 0) 1 0 0 (mkWorld 15 []) =
      Ok (tt, mkWorld 18 ([] ++ ws)) /\
    List.length ws = 4%nat /\
    forall n, (n < List.length ws)%nat ->
      py (nth n ws write0) = 0 /\
      (is_mirrored (cel_at (loop_at view_mirror 1) 0) <> 0 /\
       unmirrored_loop_num (cel_at (loop_at view_mirror 1) 0) <> 1 ->
         px (nth n ws write0) = 0 + 2 * 2 - 1 - Z.of_nat n) /\
      (is_mirrored (cel_at (loop_at view_mirror 1) 0) = 0 \/
       unmirrored_loop_num (cel_at (loop_at view_mirror 1) 0) = 1 ->
         px (nth n ws write0) = 0 + Z.of_nat n).
Proof.
  apply (draw_row_direction file_mirror (cel_at (loop_at view_mirror 1) 0) 1 0 0
           (mkWorld 15 []) [x11; x21] []).
  - reflexivity.
  - repeat constructor; discriminate.
Defined.

(** C6: every pixel written for a run whose colour index is the cel's
    [transparency_color] is transparent black, alpha 0, whatever the
    palette holds at that index; for any other colour index the pixels
    carry the palette's red, green and blue and alpha 255.  A run of
    [count] writes [2 * count] pixels. *)
Theorem write_run_colors (cel : Cel) (y step color count x : Z) (w : World) :
  0 <= count ->
  exists ws,
    write_run cel y step color count x w =
      Ok (x + 2 * count * step, mkWorld (fpos w) (written w ++ ws)) /\
    Z.of_nat (List.length ws) = 2 * count /\
    (color = transparency_color cel ->
       Forall (fun p => pa p = 0 /\ pr p = 0 /\ pg p = 0 /\ pb p = 0) ws) /\
    (color <> transparency_color cel ->
       Forall (fun p => pa p = 255 /\
                        pr p = c_r (get color0 pal color) /\
                        pg p = c_g (get color0 pal color) /\
                        pb p = c_b (get color0 pal color)) ws).
Proof.
  intros Hc. eexists. split; [apply write_run_Ok; exact Hc|].
  split.
  - rewrite doubled_length, repeat_length. lia.
  - assert (Hall : forall (P : PixelWrite -> Prop) k x0,
              (forall x1, P (pixel cel y color x1)) ->
              Forall P (doubled cel y step x0 (repeat color k))).
    { intros P k. induction k as [|k IH]; intros x0 HP; simpl.
      - constructor.
      - constructor; [apply HP|]. constructor; [apply HP|]. apply IH. exact HP. }
    split; intros Hcol; apply Hall; intros x1; unfold pixel, run_color.
    + destruct (Z.eqb_spec color (transparency_color cel)); [|contradiction].
      simpl. auto.
    + destruct (Z.eqb_spec color (transparency_color cel)); [contradiction|].
      simpl. auto.
Qed.

(** A run of three pixels of colour 4 in a cel whose transparent colour
    is 4, and in one whose transparent colour is 0. *)
Lemma write_run_colors_witness :
  (exists ws,
     write_run (mkCel 0 0 3 1 4 0 0) 0 1 4 3 0 world0 =
       Ok (0 + 2 * 3 * 1, mkWorld 0 ([] ++ ws)) /\
     Z.of_nat (List.length ws) = 2 * 3 /\
     (4 = 4 -> Forall (fun p => pa p = 0 /\ pr p = 0 /\ pg p = 0 /\ pb p = 0) ws) /\
     (4 <> 4 ->
      Forall (fun p => pa p = 255 /\
                       pr p = c_r (get color0 pal 4) /\
                       pg p = c_g (get color0 pal 4) /\
                       pb p = c_b (get color0 pal 4)) ws)) /\
  write_run (mkCel 0 0 3 1 0 0 0) 0 1 4 1 0 world0 =
    Ok (2, mkWorld 0 [mkWrite 0 0 170 0 0 255; mkWrite 1 0 170 0 0 255]).
Proof.
  split; [|reflexivity].
  apply (write_run_colors (mkCel 0 0 3 1 4 0 0) 0 1 4 3 0 world0). lia.
Defined.

(** C7: every source pixel of a row is written twice, at two columns next
    to each other in the direction of drawing, so a row of [W] source
    pixels, [W] being the sum of its run lengths, makes exactly [2 * W]
    writes; runs of length 0 add none. *)
Theorem row_loop_doubles (cel : Cel) (y step x : Z) (w : World)
        (cs rest : list byte) :
  Forall nonzero cs ->
  let colors := expand (map run_of cs) in
  exists ws,
    row_loop (cs ++ x00 :: rest) cel y step x w =
      Ok (tt, mkWorld (fpos w + Z.of_nat (List.length cs) + 1) (written w ++ ws)) /\
    Z.of_nat (List.length colors) = zsum (map snd (map run_of cs)) /\
    List.length ws = (2 * List.length colors)%nat /\
    forall k, (k < List.length colors)%nat ->
      nth (2 * k) ws write0 =
        pixel cel y (nth k colors 0) (x + 2 * Z.of_nat k * step) /\
      nth (2 * k + 1) ws write0 =
        pixel cel y (nth k colors 0) (x + 2 * Z.of_nat k * step + step).
Proof.
  intros Hcs colors. exists (doubled cel y step x colors).
  split; [apply row_loop_Ok; exact Hcs|].
  split; [apply expand_length, run_of_counts|].
  split; [apply doubled_length|].
  intros k Hk. destruct (nth_doubled cel y step colors x k Hk) as (-> & ->).
  split; f_equal; lia.
Qed.

Lemma row_loop_doubles_witness :
  let colors := expand (map run_of [x32; xa0; x21]) in
  exists ws,
    row_loop ([x32; xa0; x21] ++ x00 :: []) cel0 0 (-1) 5 world0 =
      Ok (tt, mkWorld (0 + 3 + 1) ([] ++ ws)) /\
    Z.of_nat (List.length colors) = zsum (map snd (map run_of [x32; xa0; x21])) /\
    List.length ws = (2 * List.length colors)%nat /\
    forall k, (k < List.length colors)%nat ->
      nth (2 * k) ws write0 =
        pixel cel0 0 (nth k colors 0) (5 + 2 * Z.of_nat k * -1) /\
      nth (2 * k + 1) ws write0 =
        pixel cel0 0 (nth k colors 0) (5 + 2 * Z.of_nat k * -1 + -1).
Proof.
  apply (row_loop_doubles cel0 0 (-1) 5 world0 [x32; xa0; x21] []).
  repeat constructor; discriminate.
Defined.

(** ** The claims on [GetSurfaceSize], [ViewToBMP] and [main] *)

(** Nothing is stored to the right of the surface. *)
Lemma surface_pixel_outside (s : SDL_Surface) (x y : Z) :
  surf_w s <= x -> surface_pixel s x y = color0.
Proof.
  intros Hx. unfold surface_pixel.
  induction (surf_writes s) as [|p ws IH] using rev_ind; [reflexivity|].
  rewrite fold_left_app. cbn [fold_left]. rewrite IH.
  destruct (Z.ltb_spec x (surf_w s)); [lia|].
  rewrite !andb_false_r. reflexivity.
Qed.

(** C1, at a view whose loop is wider than 255: the two cels of
    [file_wide] are 160 wide each, 320 together, and the canvas is
    2 * (320 mod 256) = 128 wide, not 640; the 640 pixels of the row are
    still drawn, up to column 639, and those from column 128 on, the
    second cel among them, are not in the image. *)
Theorem GetSurfaceSize_wide_loop_wraps :
  read_view file_wide world0 = Ok (view_wide, mkWorld 30 []) /\
  map sum_widths (view_loops view_wide) = [320] /\
  map max_height (view_loops view_wide) = [1] /\
  fst (GetSurfaceSize view_wide) = mkRect 0 0 128 1 /\
  exists s,
    ViewToBMP (env_of [("wide"%string, file_wide)] 1000000) "wide" =
      Saved "wide.bmp" s /\
    surf_w s = 128 /\
    List.length (surf_writes s) = 640%nat /\
    nth 639 (surf_writes s) write0 = mkWrite 639 0 0 170 0 255 /\
    surface_pixel s 127 0 = mkColor 0 0 170 255 /\
    forall x, 128 <= x -> surface_pixel s x 0 = color0.
Proof.
  split; [reflexivity|].
  split; [reflexivity|].
  split; [reflexivity|].
  split; [reflexivity|].
  eexists.
  split; [vm_compute; reflexivity|].
  split; [reflexivity|].
  split; [vm_compute; reflexivity|].
  split; [vm_compute; reflexivity|].
  split; [vm_compute; reflexivity|].
  intros x Hx. apply surface_pixel_outside. exact Hx.
Qed.

(** C9, as stated, fails: [GetSurfaceSize], called by [CreateSurface]
    once the view has been read, stores each loop's size in the view. *)
Lemma GetSurfaceSize_modifies_view :
  exists view w,
    read_view file_one_pixel world0 = Ok (view, w) /\
    total_width (loop_at view 0) = 0 /\
    total_width (loop_at (snd (GetSurfaceSize view)) 0) = 1 /\
    snd (GetSurfaceSize view) <> view.
Proof.
  destruct (read_view file_one_pixel world0) as [[view w]|] eqn:E;
    [|vm_compute in E; discriminate].
  vm_compute in E. injection E as <- <-.
  eexists. eexists. split; [reflexivity|].
  split; [reflexivity|]. split; [reflexivity|].
  vm_compute. discriminate.
Qed.

(** C9, amended: after the view has been read, the only fields that
    change are [total_width] and [total_height] of the loops below
    [num_loops], which [GetSurfaceSize] fills in; [num_loops], every
    loop's [offset] and [num_cels] and every field of every cel stay as
    read, and the loops from [num_loops] on are not touched. *)
Theorem GetSurfaceSize_frame (view : View) (i : Z) :
  num_loops (snd (GetSurfaceSize view)) = num_loops view /\
  offset (loop_at (snd (GetSurfaceSize view)) i) = offset (loop_at view i) /\
  num_cels (loop_at (snd (GetSurfaceSize view)) i) = num_cels (loop_at view i) /\
  cels (loop_at (snd (GetSurfaceSize view)) i) = cels (loop_at view i) /\
  (forall j, cel_at (loop_at (snd (GetSurfaceSize view)) i) j
             = cel_at (loop_at view i) j) /\
  (num_loops view <= i -> 0 <= i ->
   loop_at (snd (GetSurfaceSize view)) i = loop_at view i).
Proof.
  destruct (GetSurfaceSize_spec view) as (Hn & Hl & _ & _).
  split; [exact Hn|].
  assert (Hnn : forall m, 0 <= m ->
            offset (loop_at (snd (GetSurfaceSize view)) m) = offset (loop_at view m) /\
            num_cels (loop_at (snd (GetSurfaceSize view)) m) = num_cels (loop_at view m) /\
            cels (loop_at (snd (GetSurfaceSize view)) m) = cels (loop_at view m)).
  { intros m Hm. rewrite (Hl m Hm).
    destruct (m <? num_loops view); [apply measured_frame | auto]. }
  assert (Hall : offset (loop_at (snd (GetSurfaceSize view)) i) = offset (loop_at view i) /\
            num_cels (loop_at (snd (GetSurfaceSize view)) i) = num_cels (loop_at view i) /\
            cels (loop_at (snd (GetSurfaceSize view)) i) = cels (loop_at view i)).
  { destruct (Z.lt_ge_cases i 0) as [H|H].
    - rewrite !(loop_at_neg _ i H). apply Hnn. lia.
    - apply Hnn. exact H. }
  destruct Hall as (Ho & Hnc & Hc).
  split; [exact Ho|]. split; [exact Hnc|]. split; [exact Hc|].
  split.
  - intros j. unfold cel_at. rewrite Hc. reflexivity.
  - intros Hge Hi. rewrite (Hl i Hi).
    destruct (Z.ltb_spec i (num_loops view)); [lia | reflexivity].
Qed.

Lemma GetSurfaceSize_frame_witness :
  num_loops (snd (GetSurfaceSize view_mirror)) = num_loops view_mirror /\
  cels (loop_at (snd (GetSurfaceSize view_mirror)) 1) = cels (loop_at view_mirror 1) /\
  loop_at (snd (GetSurfaceSize view_mirror)) 2 = loop_at view_mirror 2.
Proof.
  destruct (GetSurfaceSize_frame view_mirror 1) as (Hn & _ & _ & Hc & _).
  destruct (GetSurfaceSize_frame view_mirror 2) as (_ & _ & _ & _ & _ & Hl).
  split; [exact Hn|]. split; [exact Hc|].
  apply Hl; simpl; lia.
Defined.


(** * Further properties of the program *)

(** ** What a view read from a file looks like *)

Lemma info_ranges (file : list byte) (p : Z) :
  0 <= Z.land (u8_at file p) 0x0F < 16 /\
  0 <= Z.shiftr (Z.land (u8_at file p) 0x80) 7 <= 1 /\
  0 <= Z.shiftr (Z.land (u8_at file p) 0x70) 4 < 8.
Proof.
  unfold u8_at. destruct (nth_error file (Z.to_nat p)) as [c|].
  - destruct c; vm_compute; repeat split; congruence.
  - vm_compute; repeat split; congruence.
Qed.

Lemma Uint16_bounds (z : Z) : 0 <= Uint16 z < 65536.
Proof. unfold Uint16. apply Z.mod_pos_bound. lia. Qed.

Lemma u16_at_bounds (file : list byte) (p : Z) : 0 <= u16_at file p < 65536.
Proof.
  unfold u16_at. pose proof (u8_at_range file p).
  pose proof (u8_at_range file (p + 1)). lia.
Qed.

(** The fields of a cel that has been read. *)
Lemma cel_spec_ranges (file : list byte) (o j : Z) :
  let cel := cel_spec file o j in
  0 <= header_offset cel < 65536 /\ 0 <= data_offset cel < 65536 /\
  0 <= width cel < 256 /\ 0 <= height cel < 256 /\
  0 <= transparency_color cel < 16 /\
  0 <= is_mirrored cel <= 1 /\
  0 <= unmirrored_loop_num cel < 8.
Proof.
  unfold cel_spec. cbn [header_offset data_offset width height
                        transparency_color is_mirrored unmirrored_loop_num].
  set (h := Uint16 (o + u16_at file (o + 1 + 2 * j))).
  destruct (info_ranges file (h + 2)) as (Ht & Hm & Hu).
  split; [apply Uint16_bounds|]. split; [apply Uint16_bounds|].
  split; [apply u8_at_range|]. split; [apply u8_at_range|].
  split; [exact Ht|]. split; [exact Hm | exact Hu].
Qed.

(** The ranges that the proofs below rely on. *)
Lemma read_view_ranges_aux (file : list byte) (view : View) (w : World) :
  read_view file world0 = Ok (view, w) ->
  0 <= num_loops view < 256 /\
  forall i, 0 <= i < num_loops view ->
    0 <= num_cels (loop_at view i) < 256 /\
    forall j, 0 <= j < num_cels (loop_at view i) ->
      0 <= data_offset (cel_at (loop_at view i) j) < 65536 /\
      0 <= width (cel_at (loop_at view i) j) < 256 /\
      0 <= height (cel_at (loop_at view i) j) < 256.
Proof.
  intros Hrun. apply read_view_Ok in Hrun. destruct Hrun as (Hn & _ & Hl).
  pose proof (u8_at_range file 2) as Hr2.
  split; [lia|].
  intros i Hi. destruct (Hl i ltac:(lia)) as (Hread & _).
  destruct (Hread ltac:(lia)) as (_ & Hnc & _ & _ & Hcels).
  pose proof (u8_at_range file (offset (loop_at view i))) as Hrc.
  split; [lia|].
  intros j Hj. destruct (Hcels j Hj) as (-> & _ & _).
  pose proof (cel_spec_ranges file (offset (loop_at view i)) j) as Hr.
  cbn zeta in Hr. lia.
Qed.

(** X1: in a view read from a file the counters stay within the arrays
    ([num_loops <= MAX_LOOPS], [num_cels <= MAX_CELS], so no index reaches
    the end of [loops] or [cels]) and every field is within the range of
    its type: offsets are 16-bit, sizes 8-bit, the transparent colour is a
    palette index, the mirror flag is 0 or 1, the loop number is below
    8. *)
Theorem read_view_ranges (file : list byte) (view : View) (w : World) :
  read_view file world0 = Ok (view, w) ->
  0 <= num_loops view <= MAX_LOOPS /\
  forall i, 0 <= i < num_loops view ->
    i < MAX_LOOPS /\
    0 <= offset (loop_at view i) < 65536 /\
    0 <= num_cels (loop_at view i) <= MAX_CELS /\
    forall j, 0 <= j < num_cels (loop_at view i) ->
      let cel := cel_at (loop_at view i) j in
      j < MAX_CELS /\
      0 <= header_offset cel < 65536 /\ 0 <= data_offset cel < 65536 /\
      0 <= width cel < 256 /\ 0 <= height cel < 256 /\
      0 <= transparency_color cel < 16 /\
      0 <= is_mirrored cel <= 1 /\
      0 <= unmirrored_loop_num cel < 8.
Proof.
  intros Hrun. apply read_view_Ok in Hrun. destruct Hrun as (Hn & _ & Hl).
  pose proof (u8_at_range file 2) as Hr2. unfold MAX_LOOPS, MAX_CELS.
  split; [lia|].
  intros i Hi. destruct (Hl i ltac:(lia)) as (Hread & _).
  destruct (Hread ltac:(lia)) as (Ho & Hnc & _ & _ & Hcels).
  pose proof (u8_at_range file (offset (loop_at view i))) as Hrc.
  split; [lia|]. split; [rewrite Ho; apply u16_at_bounds|]. split; [lia|].
  intros j Hj. destruct (Hcels j Hj) as (Hcel & _ & _).
  rewrite Hcel. split; [lia|]. apply cel_spec_ranges.
Qed.

Lemma read_view_ranges_witness :
  0 <= num_loops view_mirror <= MAX_LOOPS /\
  forall i, 0 <= i < num_loops view_mirror ->
    i < MAX_LOOPS /\
    0 <= offset (loop_at view_mirror i) < 65536 /\
    0 <= num_cels (loop_at view_mirror i) <= MAX_CELS /\
    forall j, 0 <= j < num_cels (loop_at view_mirror i) ->
      let cel := cel_at (loop_at view_mirror i) j in
      j < MAX_CELS /\
      0 <= header_offset cel < 65536 /\ 0 <= data_offset cel < 65536 /\
      0 <= width cel < 256 /\ 0 <= height cel < 256 /\
      0 <= transparency_color cel < 16 /\
      0 <= is_mirrored cel <= 1 /\
      0 <= unmirrored_loop_num cel < 8.
Proof.
  apply (read_view_ranges file_mirror view_mirror (mkWorld 15 [])).
  reflexivity.
Defined.

(** X2: loops whose offsets are equal are read as copies of one another:
    the same number of cels and, cel by cel, the same fields.  This is how
    a mirrored loop and the loop it mirrors reach the same pixel data. *)
Theorem read_view_same_offset (file : list byte) (view : View) (w : World)
        (i i' : Z) :
  read_view file world0 = Ok (view, w) ->
  0 <= i < num_loops view -> 0 <= i' < num_loops view ->
  offset (loop_at view i) = offset (loop_at view i') ->
  num_cels (loop_at view i) = num_cels (loop_at view i') /\
  forall j, 0 <= j < num_cels (loop_at view i) ->
    cel_at (loop_at view i) j = cel_at (loop_at view i') j.
Proof.
  intros Hrun Hi Hi' Hoff. apply read_view_Ok in Hrun.
  destruct Hrun as (_ & _ & Hl).
  destruct (Hl i ltac:(lia)) as (Hread & _).
  destruct (Hread ltac:(lia)) as (_ & Hnc & _ & _ & Hcels).
  destruct (Hl i' ltac:(lia)) as (Hread' & _).
  destruct (Hread' ltac:(lia)) as (_ & Hnc' & _ & _ & Hcels').
  assert (Hn : num_cels (loop_at view i) = num_cels (loop_at view i'))
    by (rewrite Hnc, Hnc', Hoff; reflexivity).
  split; [exact Hn|].
  intros j Hj. destruct (Hcels j Hj) as (-> & _).
  destruct (Hcels' j ltac:(lia)) as (-> & _). rewrite Hoff. reflexivity.
Qed.

Lemma read_view_same_offset_witness :
  num_cels (loop_at view_mirror 0) = num_cels (loop_at view_mirror 1) /\
  forall j, 0 <= j < num_cels (loop_at view_mirror 0) ->
    cel_at (loop_at view_mirror 0) j = cel_at (loop_at view_mirror 1) j.
Proof.
  apply (read_view_same_offset file_mirror view_mirror (mkWorld 15 []) 0 1).
  - reflexivity.
  - simpl. lia.
  - simpl. lia.
  - reflexivity.
Defined.

(** ** The size of the canvas *)

Lemma measure_loops_origin (k : nat) :
  forall (i : Z) (view : View) (result : SDL_Rect),
    rect_x (snd (iter_from k i measure_loop (view, result))) = rect_x result /\
    rect_y (snd (iter_from k i measure_loop (view, result))) = rect_y result.
Proof.
  induction k as [|k IH]; intros i view result; [split; reflexivity|].
  cbn [iter_from].
  destruct (measure_loop i (view, result)) as [view1 result1] eqn:E.
  destruct (IH (i + 1) view1 result1) as (-> & ->).
  unfold measure_loop in E.
  destruct (_ >? _) in E; injection E as _ <-; split; reflexivity.
Qed.

Lemma zmax_bounds (l : list Z) (b : Z) :
  0 <= b -> (forall v, In v l -> v <= b) -> 0 <= zmax l <= b.
Proof.
  intros Hb. induction l as [|v l IH]; intros Hl; simpl; [lia|].
  pose proof (Hl v (or_introl eq_refl)).
  assert (0 <= zmax l <= b) by (apply IH; intros; apply Hl; right; assumption).
  unfold zmax in *. lia.
Qed.

Lemma zsum_bounds (l : list Z) (b : Z) :
  (forall v, In v l -> 0 <= v <= b) ->
  0 <= zsum l <= b * Z.of_nat (List.length l).
Proof.
  induction l as [|v l IH]; intros Hl; [simpl; lia|].
  pose proof (Hl v (or_introl eq_refl)).
  assert (0 <= zsum l <= b * Z.of_nat (List.length l))
    by (apply IH; intros; apply Hl; right; assumption).
  cbn [List.length]. unfold zsum in *. cbn [fold_right]. lia.
Qed.

Lemma zfrom_length (k : nat) (i : Z) : List.length (zfrom i k) = k.
Proof. revert i; induction k as [|k IH]; intros i; simpl; [|rewrite IH]; reflexivity. Qed.

(** The loops of a view that has been read are at most 255 high. *)
Lemma read_view_heights (file : list byte) (w0 : World) (view : View) (w : World) :
  read_view file w0 = Ok (view, w) ->
  forall loop, In loop (view_loops view) -> 0 <= max_height loop <= 255.
Proof.
  intros Hrun loop Hin. apply read_view_Ok in Hrun. destruct Hrun as (_ & _ & Hl).
  unfold view_loops, zrange in Hin. apply in_map_iff in Hin.
  destruct Hin as (i & <- & Hi). apply in_zfrom in Hi.
  assert (Hi' : 0 <= i < num_loops view) by lia.
  destruct (Hl i ltac:(lia)) as (Hread & _).
  destruct (Hread ltac:(lia)) as (_ & _ & _ & _ & Hcels).
  unfold max_height. apply zmax_bounds; [lia|].
  intros v Hv. apply in_map_iff in Hv. destruct Hv as (cel & <- & Hcel).
  unfold loop_cels, zrange in Hcel. apply in_map_iff in Hcel.
  destruct Hcel as (j & <- & Hj). apply in_zfrom in Hj.
  destruct (Hcels j ltac:(lia)) as (-> & _).
  pose proof (cel_spec_ranges file (offset (loop_at view i)) j) as Hr.
  cbn zeta in Hr. lia.
Qed.

(** X3: for every view read from a file the rectangle of
    [GetSurfaceSize] lies at the origin; its height is the sum over the
    loops of each loop's largest cel height, at most 255 per loop; its
    width is even and at most 510. *)
Theorem GetSurfaceSize_canvas (file : list byte) (view : View) (w : World) :
  read_view file world0 = Ok (view, w) ->
  let size := fst (GetSurfaceSize view) in
  rect_x size = 0 /\ rect_y size = 0 /\
  rect_h size = zsum (map max_height (view_loops view)) /\
  0 <= rect_h size <= 255 * num_loops view /\
  exists k, rect_w size = 2 * k /\ 0 <= k <= 255.
Proof.
  intros Hrun size.
  pose proof (read_view_fresh _ _ _ _ Hrun) as Hfresh.
  pose proof (read_view_heights _ _ _ _ Hrun) as Hheights.
  destruct (GetSurfaceSize_fresh view Hfresh) as (_ & Hw & Hh).
  fold size in Hw, Hh.
  assert (Horigin : rect_x size = 0 /\ rect_y size = 0).
  { subst size. unfold GetSurfaceSize, iter.
    pose proof (measure_loops_origin (Z.to_nat (num_loops view)) 0 view
                  (mkRect 0 0 0 0)) as Ho.
    destruct (iter_from _ 0 measure_loop _) as [view' result].
    exact Ho. }
  destruct Horigin as (Hx & Hy).
  split; [exact Hx|]. split; [exact Hy|]. split; [exact Hh|].
  split.
  - rewrite Hh.
    assert (Hlen : Z.of_nat (List.length (map max_height (view_loops view)))
                   = Z.max 0 (num_loops view)).
    { unfold view_loops, zrange. rewrite !length_map, zfrom_length. lia. }
    pose proof (zsum_bounds (map max_height (view_loops view)) 255) as Hb.
    rewrite Hlen in Hb.
    apply read_view_Ok in Hrun. destruct Hrun as (Hn & _).
    pose proof (u8_at_range file 2).
    assert (0 <= zsum (map max_height (view_loops view))
            <= 255 * Z.max 0 (num_loops view)).
    { apply Hb. intros v Hv. apply in_map_iff in Hv.
      destruct Hv as (loop & <- & Hin). apply Hheights. exact Hin. }
    lia.
  - eexists. split; [exact Hw|].
    apply zmax_bounds; [lia|].
    intros v Hv. apply in_map_iff in Hv. destruct Hv as (loop & <- & _).
    pose proof (Z.mod_pos_bound (sum_widths loop) 256 ltac:(lia)). lia.
Qed.

Lemma GetSurfaceSize_canvas_witness :
  let size := fst (GetSurfaceSize view_mirror) in
  rect_x size = 0 /\ rect_y size = 0 /\
  rect_h size = zsum (map max_height (view_loops view_mirror)) /\
  0 <= rect_h size <= 255 * num_loops view_mirror /\
  exists k, rect_w size = 2 * k /\ 0 <= k <= 255.
Proof.
  apply (GetSurfaceSize_canvas file_mirror view_mirror (mkWorld 15 [])).
  reflexivity.
Defined.

(** ** Rows and cels *)

Lemma byte_val_zero (c : byte) : byte_val c = 0 <-> c = x00.
Proof. split; [destruct c; vm_compute; congruence | intros ->; reflexivity]. Qed.

Lemma split_row_Some (rest cs tail : list byte) :
  split_row rest = Some (cs, tail) <->
  rest = cs ++ x00 :: tail /\ Forall nonzero cs.
Proof.
  revert cs tail; induction rest as [|c rest IH]; intros cs tail; simpl.
  - split; [discriminate|]. intros (H & _). destruct cs; discriminate.
  - destruct (Z.eqb_spec (byte_val c) 0) as [E|E].
    + apply byte_val_zero in E. subst c. split.
      * intros H. injection H as <- <-. split; [reflexivity | constructor].
      * intros (H & Hnz). destruct cs as [|c' cs].
        -- simpl in H. injection H as ->. reflexivity.
        -- simpl in H. injection H as <- _. inversion Hnz as [|? ? Hc _].
           exfalso. apply Hc. reflexivity.
    + split.
      * destruct (split_row rest) as [[cs' tail']|] eqn:Es; [|discriminate].
        intros H. injection H as <- <-.
        destruct (proj1 (IH cs' tail') eq_refl) as (-> & Hnz).
        split; [reflexivity | constructor; assumption].
      * intros (H & Hnz). destruct cs as [|c' cs].
        -- simpl in H. injection H as -> _. exfalso. apply E. reflexivity.
        -- simpl in H. injection H as <- ->. inversion Hnz as [|? ? _ Hcs].
           rewrite (proj2 (IH cs tail) (conj eq_refl Hcs)). reflexivity.
Qed.


(** The loop of lines 220-249 on any bytes. *)
Lemma row_loop_eq (cel : Cel) (y step : Z) (rest : list byte) :
  forall (x : Z) (w : World),
    row_loop rest cel y step x w =
    match split_row rest with
    | Some (cs, _) =>
        Ok (tt, mkWorld (fpos w + Z.of_nat (List.length cs) + 1)
                        (written w ++ doubled cel y step x (expand (map run_of cs))))
    | None => Indeterminate
    end.
Proof.
  intros x w. destruct (split_row rest) as [[cs tail]|] eqn:E.
  - apply split_row_Some in E. destruct E as (-> & Hnz).
    apply row_loop_Ok. exact Hnz.
  - revert x w. induction rest as [|c rest IH]; intros x w; [reflexivity|].
    simpl in E. cbn [row_loop].
    destruct (Z.eqb_spec (byte_val c) 0) as [E0|E0]; [discriminate|].
    destruct (split_row rest) as [[cs tail]|]; [discriminate|].
    destruct (nibbles c) as (-> & ->).
    unfold bind. rewrite write_run_Ok by (apply Z.mod_pos_bound; lia).
    apply IH. reflexivity.
Qed.



Lemma split_row_skipn (rest cs tail : list byte) :
  split_row rest = Some (cs, tail) -> skipn (S (List.length cs)) rest = tail.
Proof.
  intros H. apply split_row_Some in H. destruct H as (-> & _).
  induction cs as [|c cs IH]; [reflexivity | exact IH].
Qed.

Lemma draw_row_eq (file : list byte) (cel : Cel) (i cel_x y : Z) (w : World) :
  draw_row file cel i cel_x y w =
  match split_row (skipn (Z.to_nat (fpos w)) file) with
  | Some (cs, _) =>
      Ok (tt, mkWorld (fpos w + Z.of_nat (List.length cs) + 1)
            (written w ++ doubled cel y (snd (row_start cel i cel_x))
                            (fst (row_start cel i cel_x)) (expand (map run_of cs))))
  | None => Indeterminate
  end.
Proof.
  unfold draw_row. destruct (row_start cel i cel_x) as [x step].
  apply row_loop_eq.
Qed.

(** The loop over [y], lines 209-250, from any position of the file. *)
Lemma draw_rows_eq (file : list byte) (cel : Cel) (i cel_x cel_y : Z) (h : nat) :
  forall (k0 : Z) (w : World),
    0 <= fpos w ->
    for_from h k0 (fun k _ => draw_row file cel i cel_x (cel_y + k)) tt w =
    match split_rows h (skipn (Z.to_nat (fpos w)) file) with
    | Some rows =>
        Ok (tt, mkWorld (fpos w + rows_bytes rows)
              (written w ++ rows_writes cel (snd (row_start cel i cel_x))
                              (fst (row_start cel i cel_x)) (cel_y + k0) rows))
    | None => Indeterminate
    end.
Proof.
  induction h as [|h IH]; intros k0 w Hpos.
  - simpl. unfold ret, rows_bytes. simpl. rewrite Z.add_0_r, app_nil_r.
    destruct w; reflexivity.
  - cbn [for_from split_rows]. unfold bind. rewrite draw_row_eq.
    destruct (split_row (skipn (Z.to_nat (fpos w)) file)) as [[cs tail]|] eqn:E;
      [|reflexivity].
    rewrite IH by (cbn [fpos]; lia). cbn [fpos written].
    replace (Z.to_nat (fpos w + Z.of_nat (List.length cs) + 1))
      with (S (List.length cs) + Z.to_nat (fpos w))%nat by lia.
    rewrite <- skipn_skipn, (split_row_skipn _ _ _ E).
    destruct (split_rows h tail) as [rows|]; [|reflexivity].
    unfold rows_bytes. cbn [map zsum fold_right rows_writes].
    rewrite <- app_assoc.
    replace (cel_y + k0 + 1) with (cel_y + (k0 + 1)) by lia.
    fold (zsum (map (fun cs0 => Z.of_nat (List.length cs0) + 1) rows)).
    eqz.
Qed.

(** Lines 206-252 as a whole. *)
Lemma draw_cel_eq (file : list byte) (loop : Loop) (i cel_y j cel_x : Z) (w : World) :
  let cel := cel_at loop j in
  0 <= data_offset cel ->
  draw_cel file loop i cel_y j cel_x w =
  match split_rows (Z.to_nat (height cel))
                   (skipn (Z.to_nat (data_offset cel)) file) with
  | Some rows =>
      Ok (cel_x + width cel * 2,
          mkWorld (data_offset cel + rows_bytes rows)
            (written w ++ rows_writes cel (snd (row_start cel i cel_x))
                            (fst (row_start cel i cel_x)) cel_y rows))
  | None => Indeterminate
  end.
Proof.
  intros cel Hpos. unfold draw_cel. fold cel.
  unfold bind at 1. unfold fseek. unfold bind at 1. unfold for_.
  rewrite draw_rows_eq by exact Hpos. cbn [fpos written].
  destruct (split_rows _ _) as [rows|]; [|reflexivity].
  unfold ret. rewrite Z.add_0_r. reflexivity.
Qed.

(** ** The cursors and the writes of a whole view *)

Lemma zfrom_last (k : nat) (i : Z) :
  zfrom i (S k) = zfrom i k ++ [i + Z.of_nat k].
Proof.
  revert i; induction k as [|k IH]; intros i.
  - simpl. rewrite Z.add_0_r. reflexivity.
  - change (zfrom i (S (S k))) with (i :: zfrom (i + 1) (S k)).
    rewrite IH. cbn [zfrom app]. eqz.
Qed.

Lemma zrange_succ (n : Z) : 0 <= n -> zrange (n + 1) = zrange n ++ [n].
Proof.
  intros Hn. unfold zrange.
  replace (Z.to_nat (n + 1)) with (S (Z.to_nat n)) by lia.
  rewrite zfrom_last. eqz.
Qed.

Lemma zsum_app (a b : list Z) : zsum (a ++ b) = zsum a + zsum b.
Proof. induction a as [|v a IH]; simpl; [reflexivity|]. unfold zsum in *. lia. Qed.

Lemma cel_x_at_succ (loop : Loop) (j : Z) :
  0 <= j -> cel_x_at loop (j + 1) = cel_x_at loop j + width (cel_at loop j) * 2.
Proof.
  intros Hj. unfold cel_x_at. rewrite zrange_succ by exact Hj.
  rewrite map_app, zsum_app. simpl. lia.
Qed.

Lemma cel_y_at_succ (view : View) (i : Z) :
  0 <= i -> cel_y_at view (i + 1) = cel_y_at view i + total_height (loop_at view i).
Proof.
  intros Hi. unfold cel_y_at. rewrite zrange_succ by exact Hi.
  rewrite map_app, zsum_app. simpl. lia.
Qed.



Lemma doubled_Forall (Q : PixelWrite -> Prop) (cel : Cel) (y step : Z)
      (colors : list Z) :
  (forall c, In c colors -> forall x, Q (pixel cel y c x)) ->
  forall x, Forall Q (doubled cel y step x colors).
Proof.
  induction colors as [|c cs IH]; intros HQ x; simpl; [constructor|].
  constructor; [apply HQ; left; reflexivity|].
  constructor; [apply HQ; left; reflexivity|].
  apply IH. intros c' Hc'. apply HQ. right. exact Hc'.
Qed.

Lemma rows_writes_Forall (Q : PixelWrite -> Prop) (cel : Cel) (step x : Z)
      (rows : list (list byte)) :
  forall y,
    (forall k cs, nth_error rows k = Some cs ->
       Forall Q (doubled cel (y + Z.of_nat k) step x (expand (map run_of cs)))) ->
    Forall Q (rows_writes cel step x y rows).
Proof.
  induction rows as [|cs rows IH]; intros y HQ; simpl; [constructor|].
  apply Forall_app. split.
  - specialize (HQ 0%nat cs eq_refl). rewrite Z.add_0_r in HQ. exact HQ.
  - apply IH. intros k cs' Hk. specialize (HQ (S k) cs' Hk).
    replace (y + 1 + Z.of_nat k) with (y + Z.of_nat (S k)) by lia. exact HQ.
Qed.

Lemma split_rows_length (h : nat) :
  forall rest rows, split_rows h rest = Some rows -> List.length rows = h.
Proof.
  induction h as [|h IH]; intros rest rows H; simpl in H.
  - injection H as <-. reflexivity.
  - destruct (split_row rest) as [[cs tail]|]; [|discriminate].
    destruct (split_rows h tail) as [rows'|] eqn:E; [|discriminate].
    injection H as <-. simpl. rewrite (IH _ _ E). reflexivity.
Qed.

Lemma nth_error_lt {A : Type} (l : list A) (k : nat) (v : A) :
  nth_error l k = Some v -> (k < List.length l)%nat.
Proof. intros H. apply nth_error_Some. rewrite H. discriminate. Qed.

(** X5: a cel of height [h] whose pixel data holds [h] rows reads exactly
    those rows from [data_offset] on and leaves the file behind the last
    zero byte; row [k] is drawn on raster row [cel_y + k], all rows from
    the same column; the cursor moves on by twice the cel's width,
    whatever the rows hold.  Where the data holds fewer than [h] rows the
    result is not defined. *)
Theorem draw_cel_rows (file : list byte) (loop : Loop) (i cel_y j cel_x : Z)
        (w : World) :
  let cel := cel_at loop j in
  0 <= data_offset cel ->
  match split_rows (Z.to_nat (height cel))
                   (skipn (Z.to_nat (data_offset cel)) file) with
  | Some rows =>
      List.length rows = Z.to_nat (height cel) /\
      draw_cel file loop i cel_y j cel_x w =
        Ok (cel_x + width cel * 2,
            mkWorld (data_offset cel + rows_bytes rows)
              (written w ++ rows_writes cel (snd (row_start cel i cel_x))
                              (fst (row_start cel i cel_x)) cel_y rows)) /\
      Forall (fun p => cel_y <= py p < cel_y + Z.max 0 (height cel))
             (rows_writes cel (snd (row_start cel i cel_x))
                          (fst (row_start cel i cel_x)) cel_y rows)
  | None => draw_cel file loop i cel_y j cel_x w = Indeterminate
  end.
Proof.
  intros cel Hoff. pose proof (draw_cel_eq file loop i cel_y j cel_x w Hoff) as E.
  fold cel in E. destruct (split_rows _ _) as [rows|] eqn:Es; [|exact E].
  pose proof (split_rows_length _ _ _ Es) as Hlen.
  split; [exact Hlen|]. split; [exact E|].
  apply rows_writes_Forall. intros k cs Hk. apply nth_error_lt in Hk.
  apply doubled_Forall. intros c _ x. unfold pixel. cbn [py]. lia.
Qed.

Lemma draw_cel_rows_witness :
  let cel := cel_at (loop_at view_mirror 0) 0 in
  match split_rows (Z.to_nat (height cel))
                   (skipn (Z.to_nat (data_offset cel)) file_mirror) with
  | Some rows =>
      List.length rows = Z.to_nat (height cel) /\
      draw_cel file_mirror (loop_at view_mirror 0) 0 0 0 0 world0 =
        Ok (0 + width cel * 2,
            mkWorld (data_offset cel + rows_bytes rows)
              ([] ++ rows_writes cel (snd (row_start cel 0 0))
                       (fst (row_start cel 0 0)) 0 rows)) /\
      Forall (fun p => 0 <= py p < 0 + Z.max 0 (height cel))
             (rows_writes cel (snd (row_start cel 0 0))
                          (fst (row_start cel 0 0)) 0 rows)
  | None => draw_cel file_mirror (loop_at view_mirror 0) 0 0 0 0 world0
            = Indeterminate
  end.
Proof.
  apply (draw_cel_rows file_mirror (loop_at view_mirror 0) 0 0 0 0 world0).
  simpl. lia.
Defined.

Lemma doubled_flip (cel : Cel) (y a : Z) (colors : list Z) :
  forall x,
    doubled cel y (-1) (a - x) colors = map (flip a) (doubled cel y 1 x colors).
Proof.
  induction colors as [|c cs IH]; intros x; [reflexivity|].
  cbn [doubled map]. unfold flip at 1 2, pixel. cbn [px py pr pg pb pa].
  replace (a - x + 2 * -1) with (a - (x + 2 * 1)) by lia.
  rewrite IH. eqz.
Qed.

Lemma rows_writes_flip (cel : Cel) (a x : Z) (rows : list (list byte)) :
  forall y,
    rows_writes cel (-1) (a - x) y rows = map (flip a) (rows_writes cel 1 x y rows).
Proof.
  induction rows as [|cs rows IH]; intros y; [reflexivity|].
  cbn [rows_writes]. rewrite map_app, doubled_flip, IH. reflexivity.
Qed.

(** X6: a cel marked as mirrored comes out in any other loop as the
    mirror image of what it is in its own loop: drawn at the same place,
    every write goes to the column that mirrors its column within the
    cel's [2 * width] columns, with the same colour and on the same row;
    the file position and the cursor end up the same. *)
Theorem draw_cel_mirror_image (file : list byte) (loop loop' : Loop)
        (i i' cel_y j j' cel_x : Z) (w : World) (x1 : Z) (w1 : World) :
  cel_at loop' j' = cel_at loop j ->
  0 <= data_offset (cel_at loop j) ->
  is_mirrored (cel_at loop j) <> 0 ->
  unmirrored_loop_num (cel_at loop j) = i -> i' <> i ->
  draw_cel file loop i cel_y j cel_x w = Ok (x1, w1) ->
  exists ws,
    written w1 = written w ++ ws /\
    draw_cel file loop' i' cel_y j' cel_x w =
      Ok (x1, mkWorld (fpos w1)
                (written w ++
                 map (flip (2 * cel_x + width (cel_at loop j) * 2 - 1)) ws)).
Proof.
  intros Hcel Hoff Hm Hu Hi Hrun.
  rewrite draw_cel_eq in Hrun by exact Hoff.
  rewrite draw_cel_eq by (rewrite Hcel; exact Hoff). rewrite Hcel.
  destruct (split_rows _ _) as [rows|]; [|discriminate].
  injection Hrun as <- <-. eexists. split; [reflexivity|].
  cbn [fpos]. unfold row_start.
  destruct (Z.eqb_spec (is_mirrored (cel_at loop j)) 0) as [|_]; [contradiction|].
  destruct (Z.eqb_spec (unmirrored_loop_num (cel_at loop j)) i) as [_|]; [|contradiction].
  destruct (Z.eqb_spec (unmirrored_loop_num (cel_at loop j)) i') as [E|_]; [congruence|].
  cbn [negb andb fst snd].
  rewrite <- rows_writes_flip.
  replace (2 * cel_x + width (cel_at loop j) * 2 - 1 - cel_x)
    with (cel_x + width (cel_at loop j) * 2 - 1) by lia.
  reflexivity.
Qed.

Lemma draw_cel_mirror_image_witness :
  exists ws,
    written (mkWorld 18 [mkWrite 0 0 0 0 170 255; mkWrite 1 0 0 0 170 255;
                         mkWrite 2 0 0 170 0 255; mkWrite 3 0 0 170 0 255])
      = written world0 ++ ws /\
    draw_cel file_mirror (loop_at view_mirror 1) 1 0 0 0 world0 =
      Ok (4, mkWorld 18
               (written world0 ++
                map (flip (2 * 0 + width (cel_at (loop_at view_mirror 0) 0) * 2 - 1))
                    ws)).
Proof.
  apply (draw_cel_mirror_image file_mirror (loop_at view_mirror 0)
           (loop_at view_mirror 1) 0 1 0 0 0 0 world0 4
           (mkWorld 18 [mkWrite 0 0 0 0 170 255; mkWrite 1 0 0 0 170 255;
                        mkWrite 2 0 0 170 0 255; mkWrite 3 0 0 170 0 255])).
  - reflexivity.
  - simpl. lia.
  - simpl. lia.
  - reflexivity.
  - lia.
  - reflexivity.
Defined.

(** ** A view after [CreateSurface] *)

Lemma zmax_ge (l : list Z) (v : Z) : In v l -> v <= zmax l.
Proof.
  induction l as [|u l IH]; intros H; [destruct H|].
  unfold zmax in *. cbn [fold_right]. destruct H as [H|H].
  - subst. lia.
  - specialize (IH H). lia.
Qed.

Lemma zsum_nonneg (l : list Z) : (forall v, In v l -> 0 <= v) -> 0 <= zsum l.
Proof.
  induction l as [|u l IH]; intros Hl; simpl; [lia|].
  pose proof (Hl u (or_introl eq_refl)).
  assert (0 <= zsum l) by (apply IH; intros; apply Hl; right; assumption).
  unfold zsum in *. lia.
Qed.

Lemma in_zrange_iff (n m : Z) : In m (zrange n) <-> 0 <= m < n.
Proof. unfold zrange. rewrite in_zfrom. lia. Qed.

(** The view that [CreateSurface] hands back for a view read from a
    file: the cels are as read, and every loop has the height of its
    tallest cel and the width of its cels modulo 256. *)
Lemma read_view_measured (file : list byte) (view : View) (w : World) :
  read_view file world0 = Ok (view, w) ->
  let view' := snd (GetSurfaceSize view) in
  num_loops view' = num_loops view /\ 0 <= num_loops view /\
  forall i, 0 <= i < num_loops view ->
    num_cels (loop_at view' i) = num_cels (loop_at view i) /\
    0 <= num_cels (loop_at view i) /\
    total_height (loop_at view' i) = max_height (loop_at view i) /\
    0 <= max_height (loop_at view i) /\
    (forall j, cel_at (loop_at view' i) j = cel_at (loop_at view i) j) /\
    forall j, 0 <= j < num_cels (loop_at view i) ->
      0 <= data_offset (cel_at (loop_at view i) j) /\
      0 <= width (cel_at (loop_at view i) j) /\
      0 <= height (cel_at (loop_at view i) j) <= max_height (loop_at view i).
Proof.
  intros Hrun view'.
  pose proof (read_view_fresh _ _ _ _ Hrun) as Hfresh.
  destruct (read_view_ranges_aux file view w Hrun) as (Hn & Hr).
  destruct (GetSurfaceSize_spec view) as (Hnum & Hl & _ & _).
  fold view' in Hnum, Hl.
  split; [exact Hnum|]. split; [lia|].
  intros i Hi. destruct (Hr i Hi) as (Hnc & Hcels).
  rewrite (Hl i) by lia. destruct (Z.ltb_spec i (num_loops view)); [|lia].
  destruct (measured_frame (loop_at view i)) as (_ & Hnc' & Hc').
  destruct (measured_fresh (loop_at view i)) as (_ & Hth); try apply Hfresh.
  split; [exact Hnc'|]. split; [lia|]. split; [exact Hth|].
  split; [apply zmax_bounds with (b := 255); [lia|];
          intros v Hv; apply in_map_iff in Hv; destruct Hv as (cel & <- & Hcel);
          unfold loop_cels in Hcel; apply in_map_iff in Hcel;
          destruct Hcel as (j & <- & Hj); apply in_zrange_iff in Hj;
          destruct (Hcels j Hj) as (_ & _ & ?); lia|].
  split; [intros j; unfold cel_at; rewrite Hc'; reflexivity|].
  intros j Hj. destruct (Hcels j Hj) as (Hd & Hw & Hh).
  split; [lia|]. split; [lia|]. split; [lia|].
  unfold max_height. apply zmax_ge. apply in_map.
  unfold loop_cels. apply in_map. apply in_zrange_iff. exact Hj.
Qed.

Lemma cel_y_at_mono (view : View) (n : Z) :
  0 <= n ->
  (forall i, 0 <= i < n -> 0 <= total_height (loop_at view i)) ->
  forall i, 0 <= i <= n -> 0 <= cel_y_at view i <= cel_y_at view n.
Proof.
  intros Hn. pattern n. apply natlike_ind; [| |exact Hn].
  - intros _ i Hi. assert (i = 0) as -> by lia. unfold cel_y_at. simpl. lia.
  - intros m Hm IH Hth i Hi. unfold Z.succ in *.
    rewrite (cel_y_at_succ view m Hm).
    pose proof (Hth m ltac:(lia)).
    assert (IH' : forall i', 0 <= i' <= m -> 0 <= cel_y_at view i' <= cel_y_at view m)
      by (apply IH; intros; apply Hth; lia).
    destruct (Z.eq_dec i (m + 1)) as [->|Hne].
    + rewrite (cel_y_at_succ view m Hm). pose proof (IH' m ltac:(lia)). lia.
    + pose proof (IH' i ltac:(lia)). lia.
Qed.

Lemma cel_x_at_mono (loop : Loop) (n : Z) :
  0 <= n ->
  (forall j, 0 <= j < n -> 0 <= width (cel_at loop j)) ->
  forall j, 0 <= j <= n -> 0 <= cel_x_at loop j <= cel_x_at loop n.
Proof.
  intros Hn. pattern n. apply natlike_ind; [| |exact Hn].
  - intros _ j Hj. assert (j = 0) as -> by lia. unfold cel_x_at. simpl. lia.
  - intros m Hm IH Hw j Hj. unfold Z.succ in *.
    rewrite (cel_x_at_succ loop m Hm).
    pose proof (Hw m ltac:(lia)).
    assert (IH' : forall j', 0 <= j' <= m -> 0 <= cel_x_at loop j' <= cel_x_at loop m)
      by (apply IH; intros; apply Hw; lia).
    destruct (Z.eq_dec j (m + 1)) as [->|Hne].
    + rewrite (cel_x_at_succ loop m Hm). pose proof (IH' m ltac:(lia)). lia.
    + pose proof (IH' j ltac:(lia)). lia.
Qed.



(** The height of the canvas is where [cel_y] stands after the last
    loop. *)
Lemma canvas_height_cel_y (file : list byte) (view : View) (w : World) :
  read_view file world0 = Ok (view, w) ->
  rect_h (fst (GetSurfaceSize view)) =
  cel_y_at (snd (GetSurfaceSize view)) (num_loops view).
Proof.
  intros Hrun.
  destruct (GetSurfaceSize_fresh view (read_view_fresh _ _ _ _ Hrun)) as (_ & _ & ->).
  destruct (read_view_measured file view w Hrun) as (_ & _ & Hm).
  unfold cel_y_at, view_loops. rewrite map_map. f_equal.
  apply map_ext_in. intros i Hi. apply in_zrange_iff in Hi.
  destruct (Hm i Hi) as (_ & _ & -> & _). reflexivity.
Qed.

(** What [ViewToBMP] has done when it saves an image. *)
Lemma ViewToBMP_Saved (env : Env) (path name : string) (s : SDL_Surface) :
  ViewToBMP env path = Saved name s ->
  exists file view w w1,
    fopen env path = Some file /\
    read_view file world0 = Ok (view, w) /\
    SDL_CreateSurface env (rect_w (fst (GetSurfaceSize view)))
                      (rect_h (fst (GetSurfaceSize view))) = true /\
    draw_view file (snd (GetSurfaceSize view)) w = Ok (tt, w1) /\
    name = bmp_name path /\
    s = mkSurface (rect_w (fst (GetSurfaceSize view)))
                  (rect_h (fst (GetSurfaceSize view))) (written w1).
Proof.
  unfold ViewToBMP, CreateSurface.
  destruct (fopen env path) as [file|]; [|discriminate].
  destruct (read_view file world0) as [[view w]|] eqn:Er; [|discriminate].
  destruct (GetSurfaceSize view) as [size view'] eqn:Eg.
  destruct (SDL_CreateSurface env (rect_w size) (rect_h size)) eqn:Es; [|discriminate].
  destruct (draw_view file view' w) as [[[] w1]|] eqn:Ed; [|discriminate].
  intros H. injection H as <- <-.
  exists file, view, w, w1. rewrite Eg. cbn [fst snd]. repeat split; auto.
Qed.




(** ** Where the columns of a view go *)

Lemma doubled_right (cel : Cel) (y : Z) (colors : list Z) :
  forall x,
    Forall (fun p => x <= px p < x + 2 * Z.of_nat (List.length colors))
           (doubled cel y 1 x colors).
Proof.
  induction colors as [|c cs IH]; intros x; [constructor|].
  cbn [doubled List.length]. unfold pixel.
  constructor; [cbn [px]; lia|]. constructor; [cbn [px]; lia|].
  eapply Forall_impl; [|apply IH]. cbv beta. intros p Hp. lia.
Qed.

Lemma doubled_left (cel : Cel) (y : Z) (colors : list Z) :
  forall x,
    Forall (fun p => x - 2 * Z.of_nat (List.length colors) < px p <= x)
           (doubled cel y (-1) x colors).
Proof.
  induction colors as [|c cs IH]; intros x; [constructor|].
  cbn [doubled List.length]. unfold pixel.
  constructor; [cbn [px]; lia|]. constructor; [cbn [px]; lia|].
  eapply Forall_impl; [|apply IH]. cbv beta. intros p Hp. lia.
Qed.

(** A row that holds no more pixels than the cel is wide stays within
    the columns of the cel, whichever way it is drawn. *)
Lemma doubled_in_cel (cel : Cel) (i cel_x y : Z) (colors : list Z) :
  Z.of_nat (List.length colors) <= width cel ->
  Forall (fun p => cel_x <= px p < cel_x + width cel * 2)
         (doubled cel y (snd (row_start cel i cel_x))
                  (fst (row_start cel i cel_x)) colors).
Proof.
  intros Hfit. unfold row_start.
  destruct (negb (is_mirrored cel =? 0) && negb (unmirrored_loop_num cel =? i));
    cbn [fst snd].
  - eapply Forall_impl; [|apply doubled_left]. cbv beta. intros p Hp. lia.
  - eapply Forall_impl; [|apply doubled_right]. cbv beta. intros p Hp. lia.
Qed.

Lemma cel_x_at_sum_widths (loop : Loop) :
  cel_x_at loop (num_cels loop) = 2 * sum_widths loop.
Proof.
  unfold cel_x_at, sum_widths, loop_cels. rewrite map_map.
  induction (zrange (num_cels loop)) as [|j l IH]; [reflexivity|].
  cbn [map]. unfold zsum in *. cbn [fold_right]. rewrite IH. lia.
Qed.

Lemma cel_x_at_ext (loop loop' : Loop) (j : Z) :
  (forall j', cel_at loop' j' = cel_at loop j') ->
  cel_x_at loop' j = cel_x_at loop j.
Proof.
  intros H. unfold cel_x_at. f_equal. apply map_ext. intros j'. rewrite H. reflexivity.
Qed.

(** The only index below a bound that evaluates to 1. *)
Ltac only_index i H :=
  cbn in H; assert (i = 0) as -> by lia.

(** ** Files that are converted *)





(** ** Views without loops, unopened files and file names *)



Lemma ViewToBMP_NotOpened (env : Env) (path : string) :
  ViewToBMP env path = NotOpened <-> fopen env path = None.
Proof.
  unfold ViewToBMP. destruct (fopen env path) as [file|].
  - split; [|discriminate].
    destruct (read_view file world0) as [[view w]|]; [|discriminate].
    destruct (CreateSurface env view) as [[size view']|]; [|discriminate].
    destruct (draw_view file view' w) as [[u w']|]; discriminate.
  - split; reflexivity.
Qed.

Lemma substring_all (s : string) (n : nat) :
  (String.length s <= n)%nat -> String.substring 0 n s = s.
Proof.
  revert n; induction s as [|c s IH]; intros n Hn.
  - destruct n; reflexivity.
  - destruct n as [|n]; simpl in Hn; [lia|].
    simpl. rewrite IH by lia. reflexivity.
Qed.

Lemma substring_prefix (s t : string) (n : nat) :
  (n <= String.length s)%nat ->
  String.substring 0 n (String.append s t) = String.substring 0 n s.
Proof.
  revert n; induction s as [|c s IH]; intros n Hn.
  - simpl in Hn. assert (n = 0)%nat as -> by lia. destruct t; reflexivity.
  - destruct n as [|n]; [reflexivity|].
    simpl in Hn. simpl. rewrite IH by lia. reflexivity.
Qed.

Lemma substring_length_le (s : string) (n : nat) :
  (String.length (String.substring 0 n s) <= n)%nat.
Proof.
  revert n; induction s as [|c s IH]; intros n.
  - destruct n; simpl; lia.
  - destruct n as [|n]; simpl; [lia|]. specialize (IH n). lia.
Qed.

Lemma append_length (s t : string) :
  String.length (String.append s t) = (String.length s + String.length t)%nat.
Proof. induction s as [|c s IH]; simpl; [|rewrite IH]; reflexivity. Qed.

(** X12: the name of the image is the path with [.bmp] appended as long
    as the path has at most 251 characters; it never has more than 255
    characters; for a path of 255 characters or more it is the first 255
    characters of the path, without the suffix, so that for a path of
    exactly 255 characters the image is saved under the name of the file
    it was read from. *)
Theorem bmp_name_truncates (path : string) :
  (String.length (bmp_name path) <= 255)%nat /\
  ((String.length path <= 251)%nat -> bmp_name path = String.append path ".bmp") /\
  ((255 <= String.length path)%nat -> bmp_name path = String.substring 0 255 path) /\
  (String.length path = 255%nat -> bmp_name path = path).
Proof.
  unfold bmp_name. split; [apply substring_length_le|]. split; [|split].
  - intros H. apply substring_all. rewrite append_length. simpl. lia.
  - intros H. apply substring_prefix. exact H.
  - intros H. rewrite substring_prefix by lia. apply substring_all. lia.
Qed.

Lemma bmp_name_truncates_witness :
  bmp_name "view.001" = "view.001.bmp"%string /\
  bmp_name path_255 = path_255.
Proof.
  split.
  - apply (proj1 (proj2 (bmp_name_truncates "view.001"))). simpl. lia.
  - apply (proj2 (proj2 (proj2 (bmp_name_truncates path_255)))). reflexivity.
Defined.

(** ** The image as a grid of cels *)

Lemma flat_map_zrange_succ {A : Type} (f : Z -> list A) (n : Z) :
  0 <= n -> flat_map f (zrange (n + 1)) = flat_map f (zrange n) ++ f n.
Proof.
  intros Hn. rewrite zrange_succ by exact Hn.
  rewrite flat_map_app. simpl. rewrite app_nil_r. reflexivity.
Qed.

Lemma draw_loop_grid (file : list byte) (view : View) (i : Z) (w : World)
      (y1 : Z) (w1 : World) :
  0 <= num_cels (loop_at view i) ->
  (forall j, 0 <= j < num_cels (loop_at view i) ->
     0 <= data_offset (cel_at (loop_at view i) j)) ->
  draw_loop file view i (cel_y_at view i) w = Ok (y1, w1) ->
  y1 = cel_y_at view i + total_height (loop_at view i) /\
  written w1 = written w ++ loop_writes file view i /\
  forall j, 0 <= j < num_cels (loop_at view i) -> cel_rows file view i j <> None.
Proof.
  intros Hn Hoff Hrun. unfold draw_loop in Hrun.
  apply bind_Ok in Hrun. destruct Hrun as (cx & w2 & Hfor & Hret).
  unfold ret in Hret. injection Hret as <- <-.
  pose (f := fun j => match cel_rows file view i j with
                      | Some rows => cel_writes view i j rows
                      | None => []
                      end).
  pose (I := fun (m : Z) (x : Z) (w3 : World) =>
    x = cel_x_at (loop_at view i) m /\
    written w3 = written w ++ flat_map f (zrange m) /\
    forall j, 0 <= j < m -> cel_rows file view i j <> None).
  assert (HI : I (num_cels (loop_at view i)) cx w2).
  { apply (for_inv I (draw_cel file (loop_at view i) i (cel_y_at view i))
             (num_cels (loop_at view i)) 0 w); auto.
    - split; [reflexivity|]. split; [simpl; rewrite app_nil_r; reflexivity|].
      intros j Hj. lia.
    - intros m x w3 x' w4 Hm (Hx & Hws & Hsome) Hstep.
      rewrite draw_cel_eq in Hstep by (apply Hoff; exact Hm).
      assert (Hf : f m = match cel_rows file view i m with
                         | Some rows => cel_writes view i m rows
                         | None => []
                         end) by reflexivity.
      unfold cel_rows, cel_writes in Hf. cbn zeta in Hf.
      assert (Hne : forall j, 0 <= j < m + 1 -> cel_rows file view i j <> None).
      { intros j Hj. destruct (Z.eq_dec j m) as [->|Hjm]; [|apply Hsome; lia].
        unfold cel_rows. cbn zeta.
        destruct (split_rows _ _); [discriminate | discriminate Hstep]. }
      destruct (split_rows _ _) as [rows|]; [|discriminate].
      injection Hstep as <- <-. split; [|split; [|exact Hne]].
      + rewrite cel_x_at_succ by lia. lia.
      + cbn [written]. rewrite Hws, flat_map_zrange_succ by lia.
        rewrite <- app_assoc, Hf, Hx. reflexivity. }
  destruct HI as (_ & Hws & Hsome).
  split; [reflexivity|].
  split; [exact Hws | exact Hsome].
Qed.

(** What [draw_view] has written when it ends, and that every cel had its
    rows. *)
Lemma draw_view_writes (file : list byte) (view : View) (w w1 : World) :
  0 <= num_loops view ->
  (forall i, 0 <= i < num_loops view -> 0 <= num_cels (loop_at view i)) ->
  (forall i j, 0 <= i < num_loops view -> 0 <= j < num_cels (loop_at view i) ->
     0 <= data_offset (cel_at (loop_at view i) j)) ->
  draw_view file view w = Ok (tt, w1) ->
  written w1 = written w ++ view_writes file view /\
  forall i j, 0 <= i < num_loops view -> 0 <= j < num_cels (loop_at view i) ->
    cel_rows file view i j <> None.
Proof.
  intros Hn Hnc Hoff Hrun. unfold draw_view in Hrun.
  apply bind_Ok in Hrun. destruct Hrun as (cy & w2 & Hfor & Hret).
  unfold ret in Hret. injection Hret as <-.
  pose (I := fun (m : Z) (y : Z) (w3 : World) =>
    y = cel_y_at view m /\
    written w3 = written w ++ flat_map (loop_writes file view) (zrange m) /\
    forall i j, 0 <= i < m -> 0 <= j < num_cels (loop_at view i) ->
      cel_rows file view i j <> None).
  assert (HI : I (num_loops view) cy w2).
  { apply (for_inv I (draw_loop file view) (num_loops view) 0 w); auto.
    - split; [reflexivity|]. split; [simpl; rewrite app_nil_r; reflexivity|].
      intros i j Hi. lia.
    - intros m y w3 y' w4 Hm (Hy & Hws & Hsome) Hstep. rewrite Hy in Hstep.
      apply draw_loop_grid in Hstep;
        [|apply Hnc; exact Hm | intros j Hj; apply Hoff; assumption].
      destruct Hstep as (-> & Hws' & Hsome'). split; [|split].
      + rewrite cel_y_at_succ by lia. reflexivity.
      + rewrite Hws', Hws, flat_map_zrange_succ by lia.
        rewrite <- app_assoc. reflexivity.
      + intros i j Hi Hj. destruct (Z.eq_dec i m) as [->|Him].
        * apply Hsome'. exact Hj.
        * apply Hsome; [lia | exact Hj]. }
  destruct HI as (_ & Hws & Hsome). split; [exact Hws | exact Hsome].
Qed.

(** X13: the image is a grid.  Whenever a view is drawn to the end, what
    has been written is, loop after loop and cel after cel, the rows of
    each cel as the file holds them at the cel's [data_offset]: cel [j] of
    loop [i] at the column that is twice the widths of the cels before it
    in the loop, and at the row that is the sum of the heights of the
    loops before it; every cel had its rows in the file. *)
Theorem draw_view_grid (file : list byte) (view : View) (w w1 : World) :
  0 <= num_loops view ->
  (forall i, 0 <= i < num_loops view -> 0 <= num_cels (loop_at view i)) ->
  (forall i j, 0 <= i < num_loops view -> 0 <= j < num_cels (loop_at view i) ->
     0 <= data_offset (cel_at (loop_at view i) j)) ->
  draw_view file view w = Ok (tt, w1) ->
  written w1 = written w ++ view_writes file view /\
  forall i j, 0 <= i < num_loops view -> 0 <= j < num_cels (loop_at view i) ->
    exists rows,
      cel_rows file view i j = Some rows /\
      List.length rows = Z.to_nat (height (cel_at (loop_at view i) j)).
Proof.
  intros Hn Hnc Hoff Hrun.
  destruct (draw_view_writes file view w w1 Hn Hnc Hoff Hrun) as (Hws & Hsome).
  split; [exact Hws|].
  intros i j Hi Hj. specialize (Hsome i j Hi Hj).
  destruct (cel_rows file view i j) as [rows|] eqn:E; [|contradiction].
  exists rows. split; [reflexivity|].
  unfold cel_rows in E. cbn zeta in E. apply (split_rows_length _ _ _ E).
Qed.

Lemma draw_view_grid_witness :
  snd (GetSurfaceSize view_mirror) = view_mirror_sized /\
  written (mkWorld 18 [mkWrite 0 0 0 0 170 255; mkWrite 1 0 0 0 170 255;
                       mkWrite 2 0 0 170 0 255; mkWrite 3 0 0 170 0 255;
                       mkWrite 3 1 0 0 170 255; mkWrite 2 1 0 0 170 255;
                       mkWrite 1 1 0 170 0 255; mkWrite 0 1 0 170 0 255])
    = written (mkWorld 15 []) ++ view_writes file_mirror view_mirror_sized /\
  forall i j,
    0 <= i < num_loops view_mirror_sized ->
    0 <= j < num_cels (loop_at view_mirror_sized i) ->
    exists rows,
      cel_rows file_mirror view_mirror_sized i j = Some rows /\
      List.length rows =
        Z.to_nat (height (cel_at (loop_at view_mirror_sized i) j)).
Proof.
  split; [reflexivity|].
  apply (draw_view_grid file_mirror view_mirror_sized (mkWorld 15 [])).
  - vm_compute. discriminate.
  - intros i Hi. change (num_loops view_mirror_sized) with 2 in Hi.
    assert (i = 0 \/ i = 1) as [-> | ->] by lia; vm_compute; discriminate.
  - intros i j Hi Hj. change (num_loops view_mirror_sized) with 2 in Hi.
    assert (i = 0 \/ i = 1) as [-> | ->] by lia;
      (change (num_cels (loop_at view_mirror_sized _)) with 1 in Hj;
       assert (j = 0) as -> by lia; vm_compute; discriminate).
  - vm_compute. reflexivity.
Defined.

(** ** Cels side by side *)

(** X8: if no loop of the view is wider than 255 and no row of pixel
    data holds more pixels than its cel is wide, the saved image holds
    every cel in a box of its own.  What has been written is the writes of
    cel after cel; those of cel [j] of loop [i] lie in the columns from
    [cel_x] on, twice the width of the cel, and in the rows from [cel_y] on,
    the height of the cel; the box lies inside the surface, ends where the
    boxes of the later cels of the loop begin, and ends above the rows of
    the later loops.  So no cel is drawn over another and nothing is lost
    at an edge. *)
Theorem saved_image_inside_surface (env : Env) (path name : string)
        (s : SDL_Surface) (file : list byte) (view : View) (w : World) :
  fopen env path = Some file ->
  read_view file world0 = Ok (view, w) ->
  (forall i, 0 <= i < num_loops view -> sum_widths (loop_at view i) < 256) ->
  (forall i j rows cs,
     0 <= i < num_loops view -> 0 <= j < num_cels (loop_at view i) ->
     cel_rows file view i j = Some rows -> In cs rows ->
     Z.of_nat (List.length (expand (map run_of cs)))
       <= width (cel_at (loop_at view i) j)) ->
  ViewToBMP env path = Saved name s ->
  let view' := snd (GetSurfaceSize view) in
  Forall (fun p => 0 <= px p < surf_w s /\ 0 <= py p < surf_h s) (surf_writes s) /\
  surf_writes s = view_writes file view' /\
  forall i j, 0 <= i < num_loops view -> 0 <= j < num_cels (loop_at view i) ->
    let cel := cel_at (loop_at view i) j in
    let x0 := cel_x_at (loop_at view' i) j in
    let y0 := cel_y_at view' i in
    (exists rows,
       cel_rows file view' i j = Some rows /\
       Forall (in_box x0 y0 (width cel * 2) (height cel))
              (cel_writes view' i j rows)) /\
    0 <= x0 /\ x0 + width cel * 2 <= surf_w s /\
    0 <= y0 /\ y0 + height cel <= surf_h s /\
    (forall j', j < j' < num_cels (loop_at view i) ->
       x0 + width cel * 2 <= cel_x_at (loop_at view' i) j') /\
    (forall i', i < i' < num_loops view ->
       y0 + height cel <= cel_y_at view' i').
Proof.
  intros Hopen Hread Hnarrow Hfit Hsaved view'.
  apply ViewToBMP_Saved in Hsaved.
  destruct Hsaved as (file' & view0 & w0 & w1 & Hopen' & Hread' & _ & Hdraw & _ & ->).
  rewrite Hopen in Hopen'. injection Hopen' as <-.
  rewrite Hread in Hread'. injection Hread' as <- <-.
  cbn [surf_w surf_h surf_writes].
  pose proof (read_view_measured file view w Hread) as Hm. cbn zeta in Hm.
  destruct Hm as (Hnum & Hn & Hm).
  pose proof (canvas_height_cel_y file view w Hread) as Hcanvas.
  fold view' in Hnum, Hm, Hdraw, Hcanvas.
  assert (Hw0 : written w = []).
  { pose proof (read_view_Ok file world0 view w Hread) as (_ & Hw & _). exact Hw. }
  (* what has been written *)
  destruct (draw_view_writes file view' w w1) as (Hws & Hsome).
  { rewrite Hnum. exact Hn. }
  { rewrite Hnum. intros i Hi. destruct (Hm i Hi) as (-> & ? & _). assumption. }
  { rewrite Hnum. intros i j Hi Hj.
    destruct (Hm i Hi) as (Hnc & _ & _ & _ & Hcel & Hr).
    rewrite Hcel. apply Hr. lia. }
  { exact Hdraw. }
  rewrite Hw0 in Hws. cbn [app] in Hws.
  (* the width of the canvas *)
  assert (Hsum : forall i, 0 <= i < num_loops view ->
            0 <= sum_widths (loop_at view i)).
  { intros i Hi. destruct (Hm i Hi) as (_ & _ & _ & _ & _ & Hr).
    unfold sum_widths. apply zsum_nonneg. intros v Hv.
    apply in_map_iff in Hv. destruct Hv as (cel & <- & Hcel).
    unfold loop_cels in Hcel. apply in_map_iff in Hcel.
    destruct Hcel as (j & <- & Hj). apply in_zrange_iff in Hj.
    apply (Hr j Hj). }
  assert (Hwide : forall i, 0 <= i < num_loops view ->
            2 * sum_widths (loop_at view i) <= rect_w (fst (GetSurfaceSize view))).
  { intros i Hi.
    destruct (GetSurfaceSize_narrow view (read_view_fresh _ _ _ _ Hread)) as (-> & _).
    - intros loop Hin. unfold view_loops in Hin. apply in_map_iff in Hin.
      destruct Hin as (i' & <- & Hi'). apply in_zrange_iff in Hi'.
      split; [apply Hsum | apply Hnarrow]; exact Hi'.
    - assert (sum_widths (loop_at view i) <= zmax (map sum_widths (view_loops view))).
      { apply zmax_ge. apply in_map. unfold view_loops. apply in_map.
        apply in_zrange_iff. exact Hi. }
      lia. }
  (* the rows of the loops *)
  assert (Hymono : forall n, 0 <= n <= num_loops view ->
            forall i, 0 <= i <= n -> 0 <= cel_y_at view' i <= cel_y_at view' n).
  { intros n Hn'. apply cel_y_at_mono; [lia|].
    intros i Hi. destruct (Hm i ltac:(lia)) as (_ & _ & -> & ? & _). assumption. }
  (* the box of each cel *)
  assert (Hbox : forall i j, 0 <= i < num_loops view ->
            0 <= j < num_cels (loop_at view i) ->
            let cel := cel_at (loop_at view i) j in
            let x0 := cel_x_at (loop_at view' i) j in
            let y0 := cel_y_at view' i in
            (exists rows,
               cel_rows file view' i j = Some rows /\
               Forall (in_box x0 y0 (width cel * 2) (height cel))
                      (cel_writes view' i j rows)) /\
            0 <= x0 /\ x0 + width cel * 2 <= rect_w (fst (GetSurfaceSize view)) /\
            0 <= y0 /\ y0 + height cel <= rect_h (fst (GetSurfaceSize view)) /\
            (forall j', j < j' < num_cels (loop_at view i) ->
               x0 + width cel * 2 <= cel_x_at (loop_at view' i) j') /\
            (forall i', i < i' < num_loops view ->
               y0 + height cel <= cel_y_at view' i')).
  { intros i j Hi Hj cel x0 y0.
    destruct (Hm i Hi) as (Hnc & Hnc0 & Hth & _ & Hcel & Hr).
    destruct (Hr j Hj) as (_ & Hwidth & Hheight).
    assert (Hx : forall j', cel_x_at (loop_at view' i) j' = cel_x_at (loop_at view i) j').
    { intros j'. apply cel_x_at_ext. exact Hcel. }
    assert (Hxmono : forall n, 0 <= n <= num_cels (loop_at view i) ->
              forall j', 0 <= j' <= n ->
                0 <= cel_x_at (loop_at view i) j' <= cel_x_at (loop_at view i) n).
    { intros n Hn'. apply cel_x_at_mono; [lia|].
      intros j' Hj'. apply (Hr j' ltac:(lia)). }
    assert (Hnext : cel_x_at (loop_at view i) (j + 1) = x0 + width cel * 2).
    { rewrite cel_x_at_succ by lia. unfold x0. rewrite Hx. reflexivity. }
    assert (Hynext : cel_y_at view' (i + 1) = y0 + max_height (loop_at view i)).
    { rewrite cel_y_at_succ by lia. rewrite Hth. reflexivity. }
    pose proof (Hxmono (num_cels (loop_at view i)) ltac:(lia) j ltac:(lia)) as Hx0.
    pose proof (Hxmono (num_cels (loop_at view i)) ltac:(lia) (j + 1) ltac:(lia)) as Hx1.
    rewrite cel_x_at_sum_widths in Hx0, Hx1. rewrite Hnext in Hx1.
    pose proof (Hwide i Hi) as Hwi.
    pose proof (Hymono (num_loops view) ltac:(lia) i ltac:(lia)) as Hy0.
    pose proof (Hymono (num_loops view) ltac:(lia) (i + 1) ltac:(lia)) as Hy1.
    rewrite Hynext in Hy1. rewrite <- Hcanvas in Hy0, Hy1.
    fold cel in Hheight, Hwidth.
    assert (Ex0 : x0 = cel_x_at (loop_at view i) j) by (unfold x0; apply Hx).
    split; [|split; [lia|]; split; [lia|]; split; [unfold y0; lia|];
             split; [lia|]; split].
    - specialize (Hsome i j ltac:(lia) ltac:(lia)).
      destruct (cel_rows file view' i j) as [rows|] eqn:Erows; [|contradiction].
      exists rows. split; [reflexivity|].
      assert (Erows' : cel_rows file view i j = Some rows).
      { unfold cel_rows in *. cbn zeta in *. rewrite Hcel in Erows. exact Erows. }
      assert (Hlen : List.length rows = Z.to_nat (height cel)).
      { unfold cel_rows in Erows'. cbn zeta in Erows'.
        apply (split_rows_length _ _ _ Erows'). }
      unfold cel_writes. cbn zeta. rewrite Hcel. fold cel. fold x0. fold y0.
      apply rows_writes_Forall. intros k cs Hk.
      pose proof (nth_error_lt _ _ _ Hk) as Hklt.
      apply nth_error_In in Hk.
      unfold in_box. apply Forall_and.
      + apply doubled_in_cel. apply (Hfit i j rows cs Hi Hj Erows' Hk).
      + apply doubled_Forall. intros c _ x. unfold pixel. cbn [py]. lia.
    - intros j' Hj'.
      pose proof (Hxmono j' ltac:(lia) (j + 1) ltac:(lia)) as Hle.
      rewrite Hnext in Hle. rewrite Hx. lia.
    - intros i' Hi'.
      pose proof (Hymono i' ltac:(lia) (i + 1) ltac:(lia)) as Hle.
      rewrite Hynext in Hle. lia. }
  split; [|split; [exact Hws | exact Hbox]].
  (* every write lies in the box of its cel *)
  rewrite Hws. unfold view_writes.
  apply Forall_forall. intros p Hp.
  apply in_flat_map in Hp. destruct Hp as (i & Hi & Hp).
  apply in_zrange_iff in Hi. rewrite Hnum in Hi.
  unfold loop_writes in Hp. apply in_flat_map in Hp. destruct Hp as (j & Hj & Hp).
  apply in_zrange_iff in Hj.
  destruct (Hm i Hi) as (Hnc & _). rewrite Hnc in Hj.
  destruct (Hbox i j Hi Hj) as ((rows & Erows & HF) & Hb).
  cbn zeta in Hb. rewrite Erows in Hp.
  rewrite Forall_forall in HF. specialize (HF p Hp). unfold in_box in HF.
  lia.
Qed.

Lemma saved_image_inside_surface_witness :
  [mkWrite 0 0 0 0 170 255; mkWrite 1 0 0 0 170 255;
   mkWrite 2 0 0 170 0 255; mkWrite 3 0 0 170 0 255]
    = view_writes file_pair (snd (GetSurfaceSize view_pair)) /\
  (exists rows,
     cel_rows file_pair (snd (GetSurfaceSize view_pair)) 0 0 = Some rows /\
     Forall (in_box 0 0 2 1) (cel_writes (snd (GetSurfaceSize view_pair)) 0 0 rows)) /\
  (exists rows,
     cel_rows file_pair (snd (GetSurfaceSize view_pair)) 0 1 = Some rows /\
     Forall (in_box 2 0 2 1) (cel_writes (snd (GetSurfaceSize view_pair)) 0 1 rows)).
Proof.
  destruct (saved_image_inside_surface
              (env_of [("pair"%string, file_pair)] 1000000) "pair" "pair.bmp"
              (mkSurface 4 1 [mkWrite 0 0 0 0 170 255; mkWrite 1 0 0 0 170 255;
                              mkWrite 2 0 0 170 0 255; mkWrite 3 0 0 170 0 255])
              file_pair view_pair (mkWorld 20 []))
    as (_ & Hws & Hbox).
  - reflexivity.
  - reflexivity.
  - intros i Hi. only_index i Hi. vm_compute. reflexivity.
  - intros i j rows cs Hi. only_index i Hi.
    intros Hj. change (num_cels (loop_at view_pair 0)) with 2 in Hj.
    assert (j = 0 \/ j = 1) as [-> | ->] by lia;
      (intros Hrows Hcs; vm_compute in Hrows; injection Hrows as <-;
       destruct Hcs as [<- | []]; vm_compute; discriminate).
  - vm_compute. reflexivity.
  - split; [exact Hws|]. split.
    + destruct (Hbox 0 0) as (Hrows & _); [vm_compute; split; [discriminate | reflexivity] ..|].
      exact Hrows.
    + destruct (Hbox 0 1) as (Hrows & _); [vm_compute; split; [discriminate | reflexivity] ..|].
      exact Hrows.
Defined.

(** ** Reads past the end of the file *)




(** ** Runs over several files *)

Lemma prefixed_nil (r : Run) : prefixed [] r = r.
Proof. destruct r. reflexivity. Qed.

Lemma prefixed_prefixed (evs evs' : list Event) (r : Run) :
  prefixed evs (prefixed evs' r) = prefixed (evs ++ evs') r.
Proof. unfold prefixed. cbn [events env_after status]. rewrite app_assoc. reflexivity. Qed.

(** The paths after a run that has returned are handled in the
    environment that it leaves; after a run that has not returned, they are
    not handled. *)
Lemma convert_all_app (SDL_SaveBMP : Saver) (before rest : list string) :
  forall env,
    convert_all SDL_SaveBMP env (before ++ rest) =
    match status (convert_all SDL_SaveBMP env before) with
    | Returned _ =>
        prefixed (events (convert_all SDL_SaveBMP env before))
                 (convert_all SDL_SaveBMP
                              (env_after (convert_all SDL_SaveBMP env before)) rest)
    | _ => convert_all SDL_SaveBMP env before
    end.
Proof.
  induction before as [|p before IH]; intros env.
  - cbn [app convert_all status events env_after]. rewrite prefixed_nil. reflexivity.
  - cbn [app convert_all].
    destruct (ViewToBMP env p) as [|name s| |]; cbn zeta iota.
    + rewrite IH. cbn [prefixed status events env_after].
      destruct (status (convert_all SDL_SaveBMP env before));
        [rewrite prefixed_prefixed|..]; reflexivity.
    + rewrite IH. cbn [prefixed status events env_after].
      destruct (status (convert_all SDL_SaveBMP
                          (after_save SDL_SaveBMP env name s) before));
        [rewrite prefixed_prefixed|..]; reflexivity.
    + reflexivity.
    + reflexivity.
Qed.

(** C8, as stated, fails.  [file_large] has no pixel data and asks for a
    canvas of 510 by 255; where no such surface can be created the program
    exits, and [file_one_pixel], which is listed after it and is converted
    when listed alone, is not processed. *)
Lemma failed_surface_stops_all_files :
  events (main save_pixels env_capped ["agiview2bmp"; "large"; "pixel"]%string) =
    [Banner; Converting "large"; SurfaceError] /\
  status (main save_pixels env_capped ["agiview2bmp"; "large"; "pixel"]%string) =
    Exited 1 /\
  saved (events (main save_pixels env_capped ["agiview2bmp"; "large"; "pixel"]%string)) =
    [] /\
  saved (events (main save_pixels env_capped ["agiview2bmp"; "pixel"]%string)) =
    [("pixel.bmp"%string,
      mkSurface 2 1 [mkWrite 0 0 0 0 170 255; mkWrite 1 0 0 0 170 255])] /\
  status (main save_pixels env_capped ["agiview2bmp"; "pixel"]%string) = Returned 0.
Proof. repeat split; vm_compute; reflexivity. Qed.

(** C8, amended: the files are processed in the order given, each in the
    environment that the files before it have left, the images saved so
    far among its files.  After files that have been handled to the end,
    a path that cannot be opened is reported with its name and passed over:
    the run goes on with the next path in the same environment.  A file
    that opens is not checked for being well formed and never passed over:
    either its image is saved under the name made from the path, and the
    run goes on with the next path in the environment that holds the
    saved image; or no surface can be created for it, which is reported
    and ends the program with a failure status, what was saved before
    staying and no later path being processed; or the program meets a
    value that was never written, and nothing is known about the rest of
    the run. *)
Theorem main_skips_unopened_exits_on_surface (SDL_SaveBMP : Saver) (env : Env)
        (prog path : string) (before rest : list string) :
  status (convert_all SDL_SaveBMP env before) = Returned 0 ->
  let r := convert_all SDL_SaveBMP env before in
  let all := main SDL_SaveBMP env (prog :: before ++ path :: rest) in
  (fopen (env_after r) path = None ->
     all = prefixed (Banner :: events r ++ [Converting path; OpenError path])
                    (convert_all SDL_SaveBMP (env_after r) rest)) /\
  (forall file, fopen (env_after r) path = Some file ->
     (exists s, ViewToBMP (env_after r) path = Saved (bmp_name path) s) \/
     ViewToBMP (env_after r) path = ExitFailure \/
     ViewToBMP (env_after r) path = Undefined) /\
  (forall name s, ViewToBMP (env_after r) path = Saved name s ->
     all = prefixed (Banner :: events r
                       ++ [Converting path; SaveBMP name s; SavedAs name])
                    (convert_all SDL_SaveBMP
                                 (after_save SDL_SaveBMP (env_after r) name s) rest)) /\
  (ViewToBMP (env_after r) path = ExitFailure ->
     all = mkRun (Banner :: events r ++ [Converting path; SurfaceError])
                 (env_after r) (Exited 1)) /\
  (ViewToBMP (env_after r) path = Undefined ->
     all = mkRun (Banner :: events r ++ [Converting path]) (env_after r) Unknown).
Proof.
  intros Hret r all.
  assert (Hall : all = prefixed (Banner :: events r)
                         (convert_all SDL_SaveBMP (env_after r) (path :: rest))).
  { unfold all, main. rewrite convert_all_app, Hret. fold r.
    rewrite prefixed_prefixed.
    destruct before; reflexivity. }
  assert (Hstep : forall evs r', prefixed (Banner :: events r) (prefixed evs r')
                                 = prefixed (Banner :: events r ++ evs) r').
  { intros evs r'. rewrite prefixed_prefixed. reflexivity. }
  split; [|split; [|split; [|split]]].
  - intros Hopen. rewrite Hall. cbn [convert_all].
    rewrite (proj2 (ViewToBMP_NotOpened (env_after r) path) Hopen). cbn zeta iota.
    apply Hstep.
  - intros file Hopen.
    destruct (ViewToBMP (env_after r) path) as [|name s| |] eqn:E.
    + apply ViewToBMP_NotOpened in E. congruence.
    + left. exists s. apply ViewToBMP_Saved in E.
      destruct E as (_ & _ & _ & _ & _ & _ & _ & _ & -> & _). reflexivity.
    + right. left. reflexivity.
    + right. right. reflexivity.
  - intros name s Hsaved. rewrite Hall. cbn [convert_all].
    rewrite Hsaved. cbn zeta iota. apply Hstep.
  - intros Hexit. rewrite Hall. cbn [convert_all]. rewrite Hexit. reflexivity.
  - intros Hundef. rewrite Hall. cbn [convert_all]. rewrite Hundef. reflexivity.
Qed.

Lemma main_skips_unopened_exits_on_surface_witness :
  (status (main save_pixels env_mixed
                ("agiview2bmp" :: ["short"] ++ "missing" :: ["pixel"])%string)
     = Returned 0 /\
   saved (events (main save_pixels env_mixed
                       ("agiview2bmp" :: ["short"] ++ "missing" :: ["pixel"])%string))
     = [("short.bmp"%string,
         mkSurface 2 1 [mkWrite 0 0 0 0 170 255; mkWrite 1 0 0 0 170 255]);
        ("pixel.bmp"%string,
         mkSurface 2 1 [mkWrite 0 0 0 0 170 255; mkWrite 1 0 0 0 170 255])]) /\
  main save_pixels env_mixed ("agiview2bmp" :: ["short"] ++ "large" :: ["pixel"])%string
    = mkRun [Banner; Converting "short";
             SaveBMP "short.bmp"
                     (mkSurface 2 1 [mkWrite 0 0 0 0 170 255; mkWrite 1 0 0 0 170 255]);
             SavedAs "short.bmp"; Converting "large"; SurfaceError]
            (env_after (convert_all save_pixels env_mixed ["short"%string]))
            (Exited 1) /\
  (fopen env_mixed "red.bmp" = None /\
   events (main save_pixels env_mixed
                ("agiview2bmp" :: ["red"] ++ "red.bmp" :: ["missing"])%string)
     = [Banner; Converting "red";
        SaveBMP "red.bmp"
                (mkSurface 2 1 [mkWrite 0 0 170 0 0 255; mkWrite 1 0 170 0 0 255]);
        SavedAs "red.bmp"; Converting "red.bmp";
        SaveBMP "red.bmp.bmp" (mkSurface 0 0 []); SavedAs "red.bmp.bmp";
        Converting "missing"; OpenError "missing"]).
Proof.
  split; [|split].
  - pose proof (main_skips_unopened_exits_on_surface save_pixels env_mixed
                  "agiview2bmp" "missing" ["short"%string] ["pixel"%string]) as H.
    cbn zeta in H. destruct H as (H & _); [vm_compute; reflexivity|].
    rewrite H by (vm_compute; reflexivity).
    split; vm_compute; reflexivity.
  - pose proof (main_skips_unopened_exits_on_surface save_pixels env_mixed
                  "agiview2bmp" "large" ["short"%string] ["pixel"%string]) as H.
    cbn zeta in H. destruct H as (_ & _ & _ & H & _); [vm_compute; reflexivity|].
    rewrite H by (vm_compute; reflexivity).
    reflexivity.
  - split; [reflexivity|].
    pose proof (main_skips_unopened_exits_on_surface save_pixels env_mixed
                  "agiview2bmp" "red.bmp" ["red"%string] ["missing"%string]) as H.
    cbn zeta in H. destruct H as (_ & _ & H & _); [vm_compute; reflexivity|].
    rewrite (H "red.bmp.bmp"%string (mkSurface 0 0 [])) by (vm_compute; reflexivity).
    vm_compute. reflexivity.
Defined.

(** Paths none of which opens: each is reported, and the environment
    stays as it was. *)
Lemma convert_all_unopened (SDL_SaveBMP : Saver) (env : Env) (paths : list string) :
  (forall path, In path paths -> fopen env path = None) ->
  convert_all SDL_SaveBMP env paths =
  mkRun (flat_map (fun path => [Converting path; OpenError path]) paths)
        env (Returned 0).
Proof.
  induction paths as [|path rest IH]; intros Hnone; [reflexivity|].
  cbn [convert_all flat_map].
  rewrite (proj2 (ViewToBMP_NotOpened env path) (Hnone path (or_introl eq_refl))).
  cbn zeta iota. rewrite IH by (intros p Hp; apply Hnone; right; exact Hp).
  reflexivity.
Qed.

(** A run that returns has handled every path, and returns 0. *)
Lemma convert_all_returned (SDL_SaveBMP : Saver) (paths : list string) :
  forall env code,
    status (convert_all SDL_SaveBMP env paths) = Returned code ->
    code = 0 /\
    exists groups,
      events (convert_all SDL_SaveBMP env paths) = List.concat groups /\
      Forall2 handled paths groups.
Proof.
  induction paths as [|path rest IH]; intros env code Hret.
  - cbn in Hret. injection Hret as <-. split; [reflexivity|].
    exists []. split; [reflexivity | constructor].
  - cbn [convert_all] in *.
    destruct (ViewToBMP env path) as [|name s| |] eqn:E; cbn zeta iota in *;
      cbn [prefixed status events file_events] in *; try discriminate.
    + destruct (IH env code Hret) as (Hcode & groups & Hev & Hall).
      split; [exact Hcode|].
      exists ([Converting path; OpenError path] :: groups).
      split; [cbn [List.concat]; rewrite Hev; reflexivity|].
      constructor; [left; reflexivity | exact Hall].
    + destruct (IH _ code Hret) as (Hcode & groups & Hev & Hall).
      split; [exact Hcode|].
      apply ViewToBMP_Saved in E.
      destruct E as (_ & _ & _ & _ & _ & _ & _ & _ & -> & _).
      exists ([Converting path; SaveBMP (bmp_name path) s; SavedAs (bmp_name path)]
                :: groups).
      split; [cbn [List.concat]; rewrite Hev; reflexivity|].
      constructor; [right; exists s; reflexivity | exact Hall].
Qed.

(** The only status with which the program exits is 1. *)
Lemma convert_all_exited (SDL_SaveBMP : Saver) (paths : list string) :
  forall env code,
    status (convert_all SDL_SaveBMP env paths) = Exited code -> code = 1.
Proof.
  induction paths as [|path rest IH]; intros env code Hex.
  - discriminate.
  - cbn [convert_all] in Hex.
    destruct (ViewToBMP env path) as [|name s| |]; cbn zeta iota in Hex;
      cbn [prefixed status] in Hex; try discriminate.
    + apply (IH _ _ Hex).
    + apply (IH _ _ Hex).
    + injection Hex as <-. reflexivity.
Qed.

(** X11: paths that cannot be opened do not change how [main] ends.  If
    none of the paths opens, each is reported in turn, nothing is saved,
    the files stay as they were and [main] returns 0.  Whenever [main]
    returns, it returns 0, and every path has been handled in the order of
    the command line: reported as not opened, or saved under the name made
    from it.  When the program exits instead, the status is 1. *)
Theorem main_returns_zero (SDL_SaveBMP : Saver) (env : Env) (prog : string)
        (paths : list string) :
  let r := main SDL_SaveBMP env (prog :: paths) in
  let usage := match paths with [] => [Usage prog] | _ => [] end in
  ((forall path, In path paths -> fopen env path = None) ->
     r = mkRun (Banner :: usage
                  ++ flat_map (fun path => [Converting path; OpenError path]) paths)
               env (Returned 0)) /\
  (forall code, status r = Returned code ->
     code = 0 /\
     exists groups,
       events r = Banner :: usage ++ List.concat groups /\
       Forall2 handled paths groups) /\
  (forall code, status r = Exited code -> code = 1).
Proof.
  intros r usage. unfold r, main. fold usage. split; [|split].
  - intros Hnone. rewrite (convert_all_unopened SDL_SaveBMP env paths Hnone).
    reflexivity.
  - intros code Hret. cbn [prefixed status events] in *.
    destruct (convert_all_returned SDL_SaveBMP paths env code Hret)
      as (Hcode & groups & Hev & Hall).
    split; [exact Hcode|]. exists groups. rewrite Hev. split; [reflexivity | exact Hall].
  - intros code Hex. cbn [prefixed status] in Hex.
    apply (convert_all_exited SDL_SaveBMP paths env code Hex).
Qed.

Lemma main_returns_zero_witness :
  main save_pixels env_short ["agiview2bmp"; "missing"; "gone"]%string =
    mkRun [Banner; Converting "missing"; OpenError "missing";
           Converting "gone"; OpenError "gone"] env_short (Returned 0) /\
  exists groups,
    events (main save_pixels env_short ["agiview2bmp"; "missing"; "short"]%string)
      = Banner :: [] ++ List.concat groups /\
    Forall2 handled ["missing"; "short"]%string groups.
Proof.
  split.
  - apply (proj1 (main_returns_zero save_pixels env_short "agiview2bmp"
                    ["missing"; "gone"]%string)).
    intros path [<- | [<- | []]]; reflexivity.
  - apply (proj1 (proj2 (main_returns_zero save_pixels env_short "agiview2bmp"
                           ["missing"; "short"]%string)) 0).
    vm_compute. reflexivity.
Defined.
